(** * Affiliate lead dashboard: the Airtable adapter layer

    A shallow embedding of [src/lib/airtable.ts] (configuration resolver,
    record mapper, paginated fetcher, lead repository and comment
    repository) together with the properties of its behaviour.

    Conventions of the embedding.
    - A JavaScript string is a sequence of UTF-16 code units.  The model
      carries the code units below 256, one [ascii] per unit, so every
      [string] of Rocq is a JavaScript string and the built-ins on strings
      ([toLowerCase], [trim], [includes]) are written out on that range.
    - A JavaScript number is [NaN], an infinity or a finite rational; the
      rounding of binary64 is left out.
    - [Number(string)], [String(number)] and [new Date(string)] belong to
      the engine, not to the repository: the development is parametric in
      them (class [Engine]).
    - A JSON object is a finite map from property names to values.
    - The network is a script of outcomes that successive [fetch] calls
      consume in order; every request sent is logged.  When the script is
      exhausted the run has no outcome ([None]), which no [catch] of the
      program can observe. *)

From Stdlib Require Import Ascii String QArith.
From stdpp Require Import gmap strings pretty list fin_maps sorting.

Set Warnings "-register-all".
Local Open Scope string_scope.
Local Open Scope list_scope.

(** ** JavaScript values *)

Module Js.

Inductive number : Type :=
| NaN
| PosInfinity
| NegInfinity
| Finite (q : Q).

(** [Number.isFinite] *)
Definition isFinite (n : number) : bool :=
  match n with Finite _ => true | _ => false end.

(** Binary minus of the language on numbers. *)
Definition minus (a b : number) : number :=
  match a, b with
  | NaN, _ | _, NaN => NaN
  | Finite x, Finite y => Finite (x - y)
  | PosInfinity, PosInfinity | NegInfinity, NegInfinity => NaN
  | PosInfinity, _ | _, NegInfinity => PosInfinity
  | NegInfinity, _ | _, PosInfinity => NegInfinity
  end.

(** A value that [JSON.parse] can produce, plus [undefined] for a property
    that is not there. *)
Inductive value : Type :=
| Undefined
| Null
| Bool (b : bool)
| Num (n : number)
| Str (s : string)
| Arr (items : list value)
| Obj (props : gmap string value).

(** Property read [o[k]] on a map of properties. *)
Definition get (props : gmap string value) (k : string) : value :=
  default Undefined (props !! k).

(** The assignment [o[k] = s] of a string on a plain object.  The key
    [__proto__] reaches the setter inherited from [Object.prototype],
    which ignores a value that is neither an object nor [null]: no
    property is written.  Every other key gets an own property. *)
Definition assignString (props : gmap string value) (k s : string) : gmap string value :=
  if decide (k = "__proto__") then props else <[k := Str s]> props.

(** Truthiness of a string ([Boolean(s)], [s || d], [if (s)]). *)
Definition truthy (s : string) : bool :=
  match s with EmptyString => false | String _ _ => true end.

(** Truthiness of [string | undefined]. *)
Definition truthyOpt (s : option string) : bool :=
  match s with Some s => truthy s | None => false end.

(** [a || d] for [a : string | undefined] and a string [d]. *)
Definition orElse (a : option string) (d : string) : string :=
  match a with
  | Some s => if truthy s then s else d
  | None => d
  end.

(** Template-literal interpolation of [string | undefined]. *)
Definition interpolate (s : option string) : string :=
  match s with Some s => s | None => "undefined" end.

(** *** Built-ins on strings *)

Definition code (c : ascii) : N := N_of_ascii c.

(** [String.prototype.toLowerCase] on one code unit below 256: the Latin
    capitals A-Z and the capitals U+00C0-U+00DE other than the
    multiplication sign U+00D7 move up by 32. *)
Definition lowerUnit (c : ascii) : ascii :=
  let n := code c in
  if ((65 <=? n) && (n <=? 90))%N
     || ((192 <=? n) && (n <=? 222) && negb (n =? 215))%N
  then ascii_of_N (n + 32)
  else c.

Fixpoint toLowerCase (s : string) : string :=
  match s with
  | EmptyString => EmptyString
  | String c s' => String (lowerUnit c) (toLowerCase s')
  end.

(** White space and line terminators below 256: TAB, LF, VT, FF, CR, SP
    and NBSP. *)
Definition isWhiteSpace (c : ascii) : bool :=
  let n := code c in
  ((9 <=? n) && (n <=? 13) || (n =? 32) || (n =? 160))%N.

Fixpoint trimStart (s : string) : string :=
  match s with
  | EmptyString => EmptyString
  | String c s' => if isWhiteSpace c then trimStart s' else s
  end.

(** [trimEnd]: the units up to the last one that is not white space. *)
Fixpoint trimEnd (s : string) : string :=
  match s with
  | EmptyString => EmptyString
  | String c s' =>
      match trimEnd s' with
      | EmptyString => if isWhiteSpace c then EmptyString else String c EmptyString
      | t => String c t
      end
  end.

Definition trim (s : string) : string := trimEnd (trimStart s).

Fixpoint startsWith (s p : string) : bool :=
  match p, s with
  | EmptyString, _ => true
  | String _ _, EmptyString => false
  | String a p', String b s' => if decide (a = b) then startsWith s' p' else false
  end.

(** [String.prototype.includes] *)
Fixpoint includes (s t : string) : bool :=
  startsWith s t ||
  match s with
  | EmptyString => false
  | String _ s' => includes s' t
  end.

(** [Array.prototype.join] on strings. *)
Fixpoint join (sep : string) (parts : list string) : string :=
  match parts with
  | [] => EmptyString
  | [p] => p
  | p :: rest => p +:+ sep +:+ join sep rest
  end.

(** Decimal digits of a natural number (an integer status code in a
    template literal). *)
Definition digits (n : nat) : string := pretty n.

(** *** Errors and completions *)

Inductive error : Type :=
| Error (message : string)
| TypeError (message : string)
| SyntaxError (message : string).

Definition message (e : error) : string :=
  match e with Error m | TypeError m | SyntaxError m => m end.

(** How an evaluation ends: with a value or with a thrown error. *)
Inductive completion (A : Type) : Type :=
| Return (a : A)
| Throw (e : error).
Arguments Return {A} a.
Arguments Throw {A} e.

(** *** Dates *)

(** A [Date] object: its time value in milliseconds, [None] for an
    invalid date. *)
Record Date : Type := mkDate { timeValue : option Z }.

Definition getTime (d : Date) : number :=
  match timeValue d with
  | Some t => Finite (inject_Z t)
  | None => NaN
  end.

(** *** Array.prototype.sort

    The comparator's result [v] is taken as [+0] when it is [NaN]; the
    sort is stable.  [sortInsert] places [x] before the first element
    that does not have to precede it. *)
Definition isPositive (n : number) : bool :=
  match n with
  | PosInfinity => true
  | Finite q => if Qlt_le_dec 0 q then true else false
  | _ => false
  end.

Fixpoint sortInsert {A} (cmp : A -> A -> number) (x : A) (l : list A) : list A :=
  match l with
  | [] => [x]
  | y :: l' => if isPositive (cmp x y) then y :: sortInsert cmp x l' else x :: l
  end.

Fixpoint sort {A} (cmp : A -> A -> number) (l : list A) : list A :=
  match l with
  | [] => []
  | x :: l' => sortInsert cmp x (sort cmp l')
  end.

End Js.

Import Js.

(** ** The engine's conversions

    [Number(s)] on a string, [String(n)] on a number and the time value of
    [new Date(s)] ([None] when the string is not a date). *)
Class Engine : Type := {
  StringToNumber : string -> number;
  NumberToString : number -> string;
  DateParse : string -> option Z;
}.

(** [new Date(s)] *)
Definition newDate `{Engine} (s : string) : Date := mkDate (DateParse s).

(** ** Data model ([src/app/types.ts] and the record types of the adapter) *)

Inductive LeadStatus : Type :=
| new | contacted | qualified | converted | lost | unknown.

Module AirtableRecord.
Record t : Type := mk {
  id : string;
  createdTime : string;
  fields : gmap string value;
}.
End AirtableRecord.

Module Lead.
Record t : Type := mk {
  id : string;
  name : string;
  status : LeadStatus;
  createdTime : Date;
  latestUpdate : option Date;
  psRepEmail : option string;
  ccComments : number;
  ccUpdateTime : option Date;
  leadEmail : option string;
  leadPhone : option string;
  notes : option string;
  affiliateComments : option string;
}.
End Lead.

Module NewLeadInput.
Record t : Type := mk {
  name : string;
  affiliateEmail : string;
  leadEmail : option string;
  leadPhone : option string;
  notes : option string;
  initialMessage : option string;
}.
End NewLeadInput.

Module AffiliateComment.
Record t : Type := mk {
  id : string;
  text : string;
  createdTime : Date;
  author : option string;
}.
End AffiliateComment.

(** ** Configuration resolver *)

Record Config : Type := {
  token : option string;
  baseId : option string;
  tableId : option string;
  fieldName : string;
  fieldRepEmail : string;
  fieldStatus : string;
  fieldLatestUpdate : string;
  fieldCcComments : string;
  fieldCcUpdateTime : string;
  fieldLeadEmail : option string;
  fieldLeadPhone : option string;
  fieldNotes : option string;
  fieldAffiliateComments : option string;
  affiliateCommentsTableId : string;
  affiliateCommentsLeadLinkField : string;
  affiliateCommentsTextField : string;
  affiliateCommentsAuthorField : string;
}.

(** [const config = { ... }] read from [import.meta.env], a map from
    variable names to strings. *)
Definition config (env : gmap string string) : Config := {|
  token := env !! "VITE_AIRTABLE_TOKEN";
  baseId := env !! "VITE_AIRTABLE_BASE_ID";
  tableId := env !! "VITE_AIRTABLE_TABLE_ID";
  fieldName := orElse (env !! "VITE_AIRTABLE_NAME_FIELD") "Name";
  fieldRepEmail := orElse (env !! "VITE_AIRTABLE_REP_EMAIL_FIELD") "PS Rep Email";
  fieldStatus := orElse (env !! "VITE_AIRTABLE_STATUS_FIELD") "Status";
  fieldLatestUpdate := orElse (env !! "VITE_AIRTABLE_LATEST_UPDATE_FIELD") "Latest Update";
  fieldCcComments := orElse (env !! "VITE_AIRTABLE_CC_COMMENTS_FIELD") "CC Comments";
  fieldCcUpdateTime := orElse (env !! "VITE_AIRTABLE_CC_UPDATE_TIME_FIELD") "CC Update Time";
  fieldLeadEmail := env !! "VITE_AIRTABLE_LEAD_EMAIL_FIELD";
  fieldLeadPhone := env !! "VITE_AIRTABLE_LEAD_PHONE_FIELD";
  fieldNotes := env !! "VITE_AIRTABLE_NOTES_FIELD";
  fieldAffiliateComments := env !! "VITE_AIRTABLE_AFFILIATE_COMMENTS_FIELD";
  affiliateCommentsTableId :=
    orElse (env !! "VITE_AIRTABLE_AFFILIATE_COMMENTS_TABLE_ID") "tblrMlNIChN4hKVkM";
  affiliateCommentsLeadLinkField :=
    orElse (env !! "VITE_AIRTABLE_AFFILIATE_COMMENT_LEAD_LINK_FIELD") "Lead";
  affiliateCommentsTextField :=
    orElse (env !! "VITE_AIRTABLE_AFFILIATE_COMMENT_TEXT_FIELD") "Comment";
  affiliateCommentsAuthorField :=
    orElse (env !! "VITE_AIRTABLE_AFFILIATE_COMMENT_AUTHOR_FIELD") "Created By";
|}.

Definition baseUrlError : string :=
  "Airtable config missing. Set VITE_AIRTABLE_TOKEN, VITE_AIRTABLE_BASE_ID, and VITE_AIRTABLE_TABLE_ID.".

Definition commentsBaseUrlError : string :=
  "Airtable comments config missing. Set VITE_AIRTABLE_TOKEN, VITE_AIRTABLE_BASE_ID, and VITE_AIRTABLE_AFFILIATE_COMMENTS_TABLE_ID.".

Definition getBaseUrl (cfg : Config) : completion string :=
  if negb (truthyOpt (token cfg)) || negb (truthyOpt (baseId cfg))
     || negb (truthyOpt (tableId cfg))
  then Throw (Error baseUrlError)
  else Return ("https://api.airtable.com/v0/" +:+ interpolate (baseId cfg) +:+ "/"
               +:+ interpolate (tableId cfg)).

Definition getCommentsBaseUrl (cfg : Config) : completion string :=
  if negb (truthyOpt (token cfg)) || negb (truthyOpt (baseId cfg))
     || negb (truthy (affiliateCommentsTableId cfg))
  then Throw (Error commentsBaseUrlError)
  else Return ("https://api.airtable.com/v0/" +:+ interpolate (baseId cfg) +:+ "/"
               +:+ affiliateCommentsTableId cfg).

Definition getHeaders (cfg : Config) : list (string * string) :=
  [("Authorization", "Bearer " +:+ interpolate (token cfg));
   ("Content-Type", "application/json")].

Definition isMessagingConfigured (cfg : Config) : bool :=
  truthy (affiliateCommentsTableId cfg)
  && truthy (affiliateCommentsLeadLinkField cfg)
  && truthy (affiliateCommentsTextField cfg).

(** ** Record mapper *)

Section Mapper.
Context `{Engine}.

Definition parseDate (v : value) : option Date :=
  match v with
  | Str s =>
      if truthy s then
        let parsed := newDate s in
        match getTime parsed with
        | NaN => None
        | _ => Some parsed
        end
      else None
  | _ => None
  end.

(** The strings among the mapped items that [filter(Boolean)] keeps. *)
Definition keepText (item : option string) : list string :=
  match item with
  | Some s => if truthy s then [s] else []
  | None => []
  end.

Fixpoint parseText (v : value) : option string :=
  match v with
  | Str s => Some s
  | Num n => Some (NumberToString n)
  | Arr items =>
      let textParts := concat (List.map keepText (List.map parseText items)) in
      match textParts with
      | [] => None
      | _ => Some (join ", " textParts)
      end
  | _ => None
  end.

Definition parseNumber (v : value) (fallback : number) : number :=
  match v with
  | Num n => if isFinite n then n else fallback
  | Str s =>
      let parsed := StringToNumber s in
      if isFinite parsed then parsed else fallback
  | _ => fallback
  end.

Definition normalizeStatus (raw : value) : LeadStatus :=
  match raw with
  | Str raw =>
      let v := toLowerCase raw in
      if decide (v = "new") then new
      else if decide (v = "contacted") then contacted
      else if decide (v = "qualified") then qualified
      else if decide (v = "converted") then converted
      else if decide (v = "lost") then lost
      else unknown
  | _ => unknown
  end.

(** [cfgField ? parseText(fields[cfgField]) : undefined] *)
Definition parseOptionalField (fields : gmap string value) (column : option string)
  : option string :=
  match column with
  | Some c => if truthy c then parseText (get fields c) else None
  | None => None
  end.

Definition mapRecordToLead (cfg : Config) (record : AirtableRecord.t) : Lead.t :=
  let fields := AirtableRecord.fields record in
  {| Lead.id := AirtableRecord.id record;
     Lead.name := orElse (parseText (get fields (fieldName cfg))) "Unnamed Lead";
     Lead.status := normalizeStatus (get fields (fieldStatus cfg));
     Lead.createdTime := newDate (AirtableRecord.createdTime record);
     Lead.latestUpdate := parseDate (get fields (fieldLatestUpdate cfg));
     Lead.psRepEmail := parseText (get fields (fieldRepEmail cfg));
     Lead.ccComments := parseNumber (get fields (fieldCcComments cfg)) (Finite 0);
     Lead.ccUpdateTime := parseDate (get fields (fieldCcUpdateTime cfg));
     Lead.leadEmail := parseOptionalField fields (fieldLeadEmail cfg);
     Lead.leadPhone := parseOptionalField fields (fieldLeadPhone cfg);
     Lead.notes := parseOptionalField fields (fieldNotes cfg);
     Lead.affiliateComments := parseOptionalField fields (fieldAffiliateComments cfg);
  |}.

(** [setIfConfigured] returns the field map after the conditional
    assignment. *)
Definition setIfConfigured (fields : gmap string value)
    (key : option string) (v : option string) : gmap string value :=
  match key, v with
  | Some k, Some s => if truthy k && truthy s then assignString fields k s else fields
  | _, _ => fields
  end.

Fixpoint getFirstTextField (fields : gmap string value) (candidates : list string)
  : option string :=
  match candidates with
  | [] => None
  | candidate :: rest =>
      match parseText (get fields candidate) with
      | Some v => Some v
      | None => getFirstTextField fields rest
      end
  end.

Definition linksItem (leadId : string) (item : value) : bool :=
  match item with
  | Str s => bool_decide (s = leadId)
  | Obj props =>
      match props !! "id" with
      | Some (Str s) => bool_decide (s = leadId)
      | _ => false
      end
  | _ => false
  end.

Definition linksValue (leadId : string) (v : value) : bool :=
  match v with
  | Arr items => existsb (linksItem leadId) items
  | Str s => includes s leadId
  | _ => false
  end.

(** [Object.values(record.fields).some(...)] *)
Definition recordLinksToLead (record : AirtableRecord.t) (leadId : string) : bool :=
  existsb (linksValue leadId) (map_to_list (AirtableRecord.fields record)).*2.

End Mapper.

(** ** The network *)

Inductive Method : Type := GET | POST.

(** [URLSearchParams]: the list of name-value pairs. *)
Module URLSearchParams.
Definition t : Type := list (string * string).

(** [set(name, value)]: the first pair of that name takes the value and
    the other pairs of that name go; without one, the pair is appended. *)
Fixpoint set (name v : string) (ps : t) : t :=
  match ps with
  | [] => [(name, v)]
  | (n, x) :: rest =>
      if decide (n = name)
      then (name, v) :: List.filter (fun p => negb (bool_decide (p.1 = name))) rest
      else (n, x) :: set name v rest
  end.
End URLSearchParams.

(** A request as [fetch] receives it.  The URL is kept in two parts, what
    stands before the query and the query's pairs ([None]: no query);
    the body is the value handed to [JSON.stringify]. *)
Record Request : Type := {
  method : Method;
  url : string;
  search : option URLSearchParams.t;
  headers : list (string * string);
  body : option value;
}.

(** What [response.json()] yields, read through the casts of the source:
    [records] and [offset] of a list or create response, and
    [error?.message] of an error payload when it is a string. *)
Module Payload.
Record t : Type := mk {
  records : list AirtableRecord.t;
  offset : option string;
  errorMessage : option string;
}.
End Payload.

Record Response : Type := {
  status : nat;
  statusText : string;
  json : completion Payload.t;
}.

(** [response.ok]: a status in the range 200-299. *)
Definition ok (r : Response) : bool := (200 <=? status r)%nat && (status r <=? 299)%nat.

(** The state of a run: the outcomes the coming [fetch] calls will have
    (resolved with a response or rejected), and the requests sent so far. *)
Record World : Type := {
  script : list (completion Response);
  sent : list Request;
}.

(** An asynchronous computation. [None]: the script ran out. *)
Definition Async (A : Type) : Type := World -> option (completion A * World).

Definition ret {A} (a : A) : Async A := fun w => Some (Return a, w).
Definition throw {A} (e : error) : Async A := fun w => Some (Throw e, w).
Definition undetermined {A} : Async A := fun _ => None.

Definition bind {A B} (m : Async A) (k : A -> Async B) : Async B :=
  fun w =>
    match m w with
    | Some (Return a, w') => k a w'
    | Some (Throw e, w') => Some (Throw e, w')
    | None => None
    end.

(** [try { m } catch { h }] *)
Definition tryCatch {A} (m : Async A) (h : error -> Async A) : Async A :=
  fun w =>
    match m w with
    | Some (Throw e, w') => h e w'
    | r => r
    end.

(** A synchronous evaluation inside an asynchronous function. *)
Definition lift {A} (c : completion A) : Async A :=
  match c with
  | Return a => ret a
  | Throw e => throw e
  end.

Declare Scope async_scope.
Delimit Scope async_scope with async.
Notation "x <- m ;; k" := (bind m (fun x => k))
  (at level 100, m at next level, right associativity) : async_scope.
Notation "m ;;; k" := (bind m (fun _ => k))
  (at level 100, right associativity) : async_scope.
Local Open Scope async_scope.

Definition fetch (req : Request) : Async Response :=
  fun w =>
    match script w with
    | [] => None
    | outcome :: rest =>
        Some (outcome, {| script := rest; sent := sent w ++ [req] |})
    end.

Definition genericFailure (response : Response) : string :=
  "Airtable request failed (" +:+ digits (status response) +:+ " "
  +:+ statusText response +:+ ")".

Definition throwIfNotOk (response : Response) : Async unit :=
  if ok response then ret tt
  else
    let errorMessage :=
      match json response with
      | Return errorPayload => Payload.errorMessage errorPayload
      | Throw _ => None
      end in
    throw (Error (orElse errorMessage (genericFailure response))).

(** ** Paginated fetcher *)

Definition listRequest (cfg : Config) (baseUrl : string) (currentParams : URLSearchParams.t)
  : Request :=
  {| method := GET; url := baseUrl; search := Some currentParams;
     headers := getHeaders cfg; body := None |}.

(** The [do ... while (offset)] loop; each turn sends one request, so a
    turn budget above the length of the script is never the reason to
    stop. *)
Fixpoint fetchAllRecords_loop (turns : nat) (cfg : Config) (baseUrl : string)
    (params : URLSearchParams.t) (records : list AirtableRecord.t)
    (offset : option string) : Async (list AirtableRecord.t) :=
  match turns with
  | O => undetermined
  | S turns' =>
      let currentParams :=
        if truthyOpt offset then URLSearchParams.set "offset" (interpolate offset) params
        else params in
      response <- fetch (listRequest cfg baseUrl currentParams) ;;
      throwIfNotOk response ;;;
      payload <- lift (json response) ;;
      let records := records ++ Payload.records payload in
      let offset := Payload.offset payload in
      if truthyOpt offset
      then fetchAllRecords_loop turns' cfg baseUrl params records offset
      else ret records
  end.

Definition fetchAllRecords (cfg : Config) (baseUrl : string) (params : URLSearchParams.t)
  : Async (list AirtableRecord.t) :=
  fun w => fetchAllRecords_loop (S (length (script w))) cfg baseUrl params [] None w.

(** ** Lead repository *)

Section Repositories.
Context `{Engine}.

Definition fetchLeads (cfg : Config) : Async (list Lead.t) :=
  baseUrl <- lift (getBaseUrl cfg) ;;
  response <- fetch {| method := GET; url := baseUrl;
                       search := Some [("sort[0][field]", fieldLatestUpdate cfg);
                                       ("sort[0][direction]", "desc")];
                       headers := getHeaders cfg; body := None |} ;;
  throwIfNotOk response ;;;
  payload <- lift (json response) ;;
  ret (List.map (mapRecordToLead cfg) (Payload.records payload)).

(** The field map that [createLead] sends. *)
Definition createLead_fields (cfg : Config) (input : NewLeadInput.t)
  : gmap string value :=
  let fields : gmap string value :=
    <[fieldStatus cfg := Str "New"]>
      (<[fieldRepEmail cfg := Str (NewLeadInput.affiliateEmail input)]>
         (<[fieldName cfg := Str (NewLeadInput.name input)]> ∅)) in
  let fields := setIfConfigured fields (fieldLeadEmail cfg) (NewLeadInput.leadEmail input) in
  let fields := setIfConfigured fields (fieldLeadPhone cfg) (NewLeadInput.leadPhone input) in
  let fields := setIfConfigured fields (fieldNotes cfg) (NewLeadInput.notes input) in
  setIfConfigured fields (fieldAffiliateComments cfg) (NewLeadInput.initialMessage input).

(** [{ records: [{ fields }], typecast: true }] *)
Definition createBody (fields : gmap string value) : value :=
  Obj (<["typecast" := Bool true]>
         (<["records" := Arr [Obj {["fields" := Obj fields]}]]> ∅)).

(** The message of the error for a create response without records. *)
Definition notCreatedError : string := "Airtable did not return created lead.".

Definition createLead (cfg : Config) (input : NewLeadInput.t) : Async Lead.t :=
  let fields := createLead_fields cfg input in
  baseUrl <- lift (getBaseUrl cfg) ;;
  response <- fetch {| method := POST; url := baseUrl; search := None;
                       headers := getHeaders cfg;
                       body := Some (createBody fields) |} ;;
  throwIfNotOk response ;;;
  payload <- lift (json response) ;;
  match Payload.records payload with
  | [] => throw (Error notCreatedError)
  | created :: _ => ret (mapRecordToLead cfg created)
  end.

(** ** Comment repository *)

Definition sendAffiliateMessage (cfg : Config) (lead : Lead.t) (message : string)
  : Async unit :=
  let fields : gmap string value :=
    <[affiliateCommentsLeadLinkField cfg := Arr [Str (Lead.id lead)]]>
      (<[affiliateCommentsTextField cfg := Str message]> ∅) in
  let fields :=
    if truthy (affiliateCommentsAuthorField cfg)
    then assignString fields (affiliateCommentsAuthorField cfg) "You"
    else fields in
  baseUrl <- lift (getCommentsBaseUrl cfg) ;;
  response <- fetch {| method := POST; url := baseUrl; search := None;
                       headers := getHeaders cfg;
                       body := Some (createBody fields) |} ;;
  throwIfNotOk response.

Definition textCandidates (cfg : Config) : list string :=
  [affiliateCommentsTextField cfg; "Comment"; "Message"; "Affiliate Comment"; "Text"; "Name"].

(** The callback of [records.map(...)]. *)
Definition commentOfRecord (cfg : Config) (record : AirtableRecord.t) : AffiliateComment.t :=
  let text :=
    orElse (getFirstTextField (AirtableRecord.fields record) (textCandidates cfg)) EmptyString in
  let author :=
    if truthy (affiliateCommentsAuthorField cfg)
    then parseText (get (AirtableRecord.fields record) (affiliateCommentsAuthorField cfg))
    else getFirstTextField (AirtableRecord.fields record)
           ["Created By"; "Author"; "From"; "Sender"] in
  {| AffiliateComment.id := AirtableRecord.id record;
     AffiliateComment.text := text;
     AffiliateComment.createdTime := newDate (AirtableRecord.createdTime record);
     AffiliateComment.author := author |}.

(** [comment.text.trim().length > 0] *)
Definition hasText (comment : AffiliateComment.t) : bool :=
  (0 <? String.length (trim (AffiliateComment.text comment)))%nat.

Definition byCreatedTime (a b : AffiliateComment.t) : number :=
  minus (getTime (AffiliateComment.createdTime a)) (getTime (AffiliateComment.createdTime b)).

(** The closing [map], [filter], [sort] chain. *)
Definition commentsOfRecords (cfg : Config) (records : list AirtableRecord.t)
  : list AffiliateComment.t :=
  sort byCreatedTime (List.filter hasText (List.map (commentOfRecord cfg) records)).

Definition doubleQuote : string := String (ascii_of_nat 34) EmptyString.

Definition formulaFor (cfg : Config) (leadId : string) : string :=
  "FIND(" +:+ doubleQuote +:+ leadId +:+ doubleQuote +:+ ", ARRAYJOIN({"
  +:+ affiliateCommentsLeadLinkField cfg +:+ "}))".

Definition fetchAffiliateCommentsForLead (cfg : Config) (leadId : string)
  : Async (list AffiliateComment.t) :=
  let formula := formulaFor cfg leadId in
  baseUrl <- lift (getCommentsBaseUrl cfg) ;;
  let params : URLSearchParams.t := [("filterByFormula", formula)] in
  records <- tryCatch (fetchAllRecords cfg baseUrl params) (fun _ => ret []) ;;
  records <-
    (if (length records =? 0)%nat
     then
       let fallbackParams : URLSearchParams.t := [] in
       records <- fetchAllRecords cfg baseUrl fallbackParams ;;
       ret (List.filter (fun record => recordLinksToLead record leadId) records)
     else ret records) ;;
  ret (commentsOfRecords cfg records).

End Repositories.

(** ** Vocabulary of the statements *)

(** The three required settings and the environment variable of each. *)
Inductive RequiredSetting : Type := Token | BaseId | TableId.

Definition envName (s : RequiredSetting) : string :=
  match s with
  | Token => "VITE_AIRTABLE_TOKEN"
  | BaseId => "VITE_AIRTABLE_BASE_ID"
  | TableId => "VITE_AIRTABLE_TABLE_ID"
  end.

Definition setting (cfg : Config) (s : RequiredSetting) : option string :=
  match s with
  | Token => token cfg
  | BaseId => baseId cfg
  | TableId => tableId cfg
  end.

(** A setting is absent when it is unset or empty. *)
Definition absent (cfg : Config) (s : RequiredSetting) : Prop :=
  truthyOpt (setting cfg s) = false.

(** The literal of each status. *)
Definition literal (st : LeadStatus) : string :=
  match st with
  | new => "new"
  | contacted => "contacted"
  | qualified => "qualified"
  | converted => "converted"
  | lost => "lost"
  | unknown => "unknown"
  end.

(** A number that is an integer and not negative. *)
Definition isCount (n : number) : Prop :=
  exists (q : Q) (k : N), n = Finite q /\ q == inject_Z (Z.of_N k).

(** A string made of white space only (the empty string included). *)
Definition blank (s : string) : Prop :=
  forall c, In c (list_ascii_of_string s) -> isWhiteSpace c = true.

(** The candidate resolution as the specification words it: the first
    candidate whose text is not empty. *)
Fixpoint spec_firstNonEmptyText `{Engine} (fields : gmap string value)
    (candidates : list string) : option string :=
  match candidates with
  | [] => None
  | candidate :: rest =>
      match parseText (get fields candidate) with
      | Some v => if truthy v then Some v else spec_firstNonEmptyText fields rest
      | None => spec_firstNonEmptyText fields rest
      end
  end.

(** The creation time of [a] is not after that of [b]. *)
Definition notAfter (a b : AffiliateComment.t) : Prop :=
  exists ta tb : Z,
    timeValue (AffiliateComment.createdTime a) = Some ta /\
    timeValue (AffiliateComment.createdTime b) = Some tb /\ (ta <= tb)%Z.

(** Every record that the scripted responses carry. *)
Definition scriptRecords (outcomes : list (completion Response)) : list AirtableRecord.t :=
  concat (List.map (fun outcome =>
                      match outcome with
                      | Return r =>
                          match json r with
                          | Return p => Payload.records p
                          | Throw _ => []
                          end
                      | Throw _ => []
                      end) outcomes).

(** The parameters of a list request that carries [offset]. *)
Definition paramsWith (offset : option string) (params : URLSearchParams.t)
  : URLSearchParams.t :=
  if truthyOpt offset then URLSearchParams.set "offset" (interpolate offset) params
  else params.

(** A successful response that carries the page [p]. *)
Definition carries (r : Response) (p : Payload.t) : Prop :=
  ok r = true /\ json r = Return p.

(** The request that [createLead] sends. *)
Definition createRequest (cfg : Config) (baseUrl : string) (input : NewLeadInput.t)
  : Request :=
  {| method := POST; url := baseUrl; search := None; headers := getHeaders cfg;
     body := Some (createBody (createLead_fields cfg input)) |}.

(** The optional destination columns, and each of them with the input
    field that goes there. *)
Definition optionalColumns (cfg : Config) : list (option string) :=
  [fieldLeadEmail cfg; fieldLeadPhone cfg; fieldNotes cfg; fieldAffiliateComments cfg].

Definition optionalFields (cfg : Config) (input : NewLeadInput.t)
  : list (option string * option string) :=
  [(fieldLeadEmail cfg, NewLeadInput.leadEmail input);
   (fieldLeadPhone cfg, NewLeadInput.leadPhone input);
   (fieldNotes cfg, NewLeadInput.notes input);
   (fieldAffiliateComments cfg, NewLeadInput.initialMessage input)].

(** Every optional field is entered; every optional column is configured. *)
Definition allPopulated (input : NewLeadInput.t) : Prop :=
  Forall (fun o => truthyOpt o = true)
    [NewLeadInput.leadEmail input; NewLeadInput.leadPhone input;
     NewLeadInput.notes input; NewLeadInput.initialMessage input].

Definition allConfigured (cfg : Config) : Prop :=
  Forall (fun o => truthyOpt o = true) (optionalColumns cfg).

(** The always-sent columns are pairwise distinct and no optional column
    is one of them. *)
Definition columnsApart (cfg : Config) : Prop :=
  fieldName cfg <> fieldRepEmail cfg
  /\ fieldName cfg <> fieldStatus cfg
  /\ fieldRepEmail cfg <> fieldStatus cfg
  /\ forall k, In (Some k) (optionalColumns cfg) ->
               k <> fieldName cfg /\ k <> fieldRepEmail cfg /\ k <> fieldStatus cfg.

(** The message of the error that [throwIfNotOk] throws. *)
Definition failureMessage (response : Response) : string :=
  orElse (match json response with
          | Return errorPayload => Payload.errorMessage errorPayload
          | Throw _ => None
          end)
         (genericFailure response).

(** How the loop ends on an outcome after which it does not go on. *)
Definition lastTurn (outcome : completion Response) (records : list AirtableRecord.t)
  : completion (list AirtableRecord.t) :=
  match outcome with
  | Throw e => Throw e
  | Return response =>
      if ok response then
        match json response with
        | Return payload => Return (records ++ Payload.records payload)
        | Throw e => Throw e
        end
      else Throw (Error (failureMessage response))
  end.

(** The outcome is not a page with a continuation token. *)
Definition stops (outcome : completion Response) : Prop :=
  forall r p, outcome = Return r -> carries r p -> truthyOpt (Payload.offset p) = false.

(** One list request per offset. *)
Definition offsetRequests (cfg : Config) (baseUrl : string) (params : URLSearchParams.t)
    (offsets : list (option string)) : list Request :=
  List.map (fun offset => listRequest cfg baseUrl (paramsWith offset params)) offsets.

(** The records that the primary strategy leaves: its result, or none
    when it failed. *)
Definition primaryRecords (primary : completion (list AirtableRecord.t))
  : list AirtableRecord.t :=
  match primary with
  | Return records => records
  | Throw _ => []
  end.

(** The parameters of the primary, filtered query. *)
Definition primaryParams (cfg : Config) (leadId : string) : URLSearchParams.t :=
  [("filterByFormula", formulaFor cfg leadId)].

(** A comment whose creation time is a valid date. *)
Definition dated (c : AffiliateComment.t) : Prop :=
  is_Some (timeValue (AffiliateComment.createdTime c)).

(** ** An engine for the examples

    The three conversions tabulated on the inputs that the examples use;
    the entry for any other input is a placeholder, and the theorems hold
    for every engine. *)
Definition exampleEngine : Engine := {|
  StringToNumber s := if decide (s = "7") then Finite 7 else NaN;
  NumberToString n :=
    match n with
    | Finite q => if Qeq_bool q 42 then "42" else "0"
    | NaN => "NaN"
    | PosInfinity => "Infinity"
    | NegInfinity => "-Infinity"
    end;
  DateParse s :=
    if decide (s = "2024-01-01T00:00:00.000Z") then Some 1704067200000%Z
    else if decide (s = "2024-01-02T00:00:00.000Z") then Some 1704153600000%Z
    else if decide (s = "2024-01-03T00:00:00.000Z") then Some 1704240000000%Z
    else None;
|}.

(** An environment with every setting present and every optional column
    configured, and an input with every optional field entered. *)
Definition exampleEnv : gmap string string :=
  {[ "VITE_AIRTABLE_TOKEN" := "key1";
     "VITE_AIRTABLE_BASE_ID" := "app1";
     "VITE_AIRTABLE_TABLE_ID" := "tbl1";
     "VITE_AIRTABLE_LEAD_EMAIL_FIELD" := "Lead Email";
     "VITE_AIRTABLE_LEAD_PHONE_FIELD" := "Lead Phone";
     "VITE_AIRTABLE_NOTES_FIELD" := "Notes";
     "VITE_AIRTABLE_AFFILIATE_COMMENTS_FIELD" := "Affiliate Comments" ]}.

Definition exampleInput (name : string) : NewLeadInput.t :=
  {| NewLeadInput.name := name;
     NewLeadInput.affiliateEmail := "rep@example.com";
     NewLeadInput.leadEmail := Some "lead@example.com";
     NewLeadInput.leadPhone := Some "555-0100";
     NewLeadInput.notes := Some "call back";
     NewLeadInput.initialMessage := Some "hi" |}.

(** The page of nine records that starts at number [start]. *)
Definition examplePage (start : nat) (token : option string) : Payload.t :=
  Payload.mk
    (List.map (fun n => AirtableRecord.mk ("rec" +:+ digits n) "2024-01-01T00:00:00.000Z" ∅)
       (seq start 9))
    token None.

(** A success response with the body [p]. *)
Definition okResponse (p : Payload.t) : Response :=
  {| status := 200; statusText := "OK"; json := Return p |}.

(** The comments table of the examples: the first record links to the
    lead through a linked-record array, the second through a plain
    string, the third belongs to another lead. *)
Definition exampleComments : list AirtableRecord.t :=
  [AirtableRecord.mk "c1" "2024-01-03T00:00:00.000Z"
     {["Comment" := Str "third"; "Lead" := Arr [Str "recLEAD"]]};
   AirtableRecord.mk "c2" "2024-01-01T00:00:00.000Z"
     {["Comment" := Str "first"; "Lead" := Str "about recLEAD, urgent"]};
   AirtableRecord.mk "c3" "2024-01-02T00:00:00.000Z"
     {["Comment" := Str "other"; "Lead" := Arr [Str "recOTHER"]]}].

(** The comments endpoint under the example environment, a response
    that refuses the formula, and the script of the fallback run. *)
Definition commentsUrl : string := "https://api.airtable.com/v0/app1/tblrMlNIChN4hKVkM".

Definition rejectedFormula : Response :=
  {| status := 422; statusText := "Unprocessable Entity";
     json := Return (Payload.mk [] None (Some "Invalid formula")) |}.

Definition fallbackWorld : World :=
  {| script := [Return rejectedFormula;
                Return (okResponse (Payload.mk exampleComments None None))];
     sent := [] |}.

(** ** Presentation layer

    The handlers of the React components ([App], [LeadForm],
    [LeadsTable]).  A component's state is a record; a handler is a
    computation over the state of the page and the network that runs its
    state updates in program order. *)

Definition Handler (S A : Type) : Type :=
  S -> World -> option (completion A * S * World).

Module H.

Definition ret {S A} (a : A) : Handler S A := fun s w => Some (Return a, s, w).
Definition throw {S A} (e : error) : Handler S A := fun s w => Some (Throw e, s, w).

Definition bind {S A B} (m : Handler S A) (k : A -> Handler S B) : Handler S B :=
  fun s w =>
    match m s w with
    | Some (Return a, s', w') => k a s' w'
    | Some (Throw e, s', w') => Some (Throw e, s', w')
    | None => None
    end.

(** A state update ([setX(...)]), also in its functional form. *)
Definition modify {S} (f : S -> S) : Handler S unit :=
  fun s w => Some (Return tt, f s, w).

(** The state that the handler reads. *)
Definition get {S} : Handler S S := fun s w => Some (Return s, s, w).

(** [await] of a call into the adapter. *)
Definition await {S A} (m : Async A) : Handler S A :=
  fun s w =>
    match m w with
    | Some (o, w') => Some (o, s, w')
    | None => None
    end.

(** [try { m } catch (err) { h err }] *)
Definition tryCatch {S A} (m : Handler S A) (h : error -> Handler S A) : Handler S A :=
  fun s w =>
    match m s w with
    | Some (Throw e, s', w') => h e s' w'
    | r => r
    end.

(** [try { m } finally { f }]: [f] runs in either case, and the outcome
    of [m] stands unless [f] throws. *)
Definition tryFinally {S A} (m : Handler S A) (f : Handler S unit) : Handler S A :=
  fun s w =>
    match m s w with
    | Some (o, s', w') =>
        match f s' w' with
        | Some (Return _, s'', w'') => Some (o, s'', w'')
        | Some (Throw e, s'', w'') => Some (Throw e, s'', w'')
        | None => None
        end
    | None => None
    end.

(** A handler of the parent component, called through a prop, and a
    handler of the component itself, on the pair of both states. *)
Definition parent {S P A} (m : Handler P A) : Handler (S * P) A :=
  fun sp w =>
    match m sp.2 w with
    | Some (o, p', w') => Some (o, (sp.1, p'), w')
    | None => None
    end.

Definition self {S P A} (m : Handler S A) : Handler (S * P) A :=
  fun sp w =>
    match m sp.1 w with
    | Some (o, s', w') => Some (o, (s', sp.2), w')
    | None => None
    end.

End H.

Declare Scope handler_scope.
Delimit Scope handler_scope with handler.
Notation "x <- m ;; k" := (H.bind m (fun x => k))
  (at level 100, m at next level, right associativity) : handler_scope.
Notation "m ;;; k" := (H.bind m (fun _ => k))
  (at level 100, right associativity) : handler_scope.

(** *** App *)

Module App.

Record State : Type := mk {
  leads : list Lead.t;
  isRefreshing : bool;
  isInitialLoading : bool;
  error : option string;
}.

Definition setLeads (v : list Lead.t) (s : State) : State :=
  mk v (isRefreshing s) (isInitialLoading s) (error s).
Definition setIsRefreshing (v : bool) (s : State) : State :=
  mk (leads s) v (isInitialLoading s) (error s).
Definition setIsInitialLoading (v : bool) (s : State) : State :=
  mk (leads s) (isRefreshing s) v (error s).
Definition setError (v : option string) (s : State) : State :=
  mk (leads s) (isRefreshing s) (isInitialLoading s) v.

(** [useState] initial values. *)
Definition initial : State := mk [] false true None.





Section Handlers.
Context `{Engine}.
Local Open Scope handler_scope.

Definition loadLeads (cfg : Config) : Handler State unit :=
  H.modify (setIsRefreshing true) ;;;
  H.modify (setError None) ;;;
  H.tryFinally
    (H.tryCatch
       (result <- H.await (fetchLeads cfg) ;;
        H.modify (setLeads result))
       (fun err => H.modify (setError (Some (message err)))))
    (H.modify (setIsRefreshing false) ;;;
     H.modify (setIsInitialLoading false)).

Definition handleSubmitLead (cfg : Config) (leadInput : NewLeadInput.t)
  : Handler State unit :=
  H.modify (setError None) ;;;
  H.tryCatch
    (created <- H.await (createLead cfg leadInput) ;;
     H.modify (fun current => setLeads (created :: leads current) current))
    (fun err =>
       H.modify (setError (Some (message err))) ;;;
       H.throw err).

Definition handleSendMessage (cfg : Config) (lead : Lead.t) (text : string)
  : Handler State unit :=
  H.modify (setError None) ;;;
  H.tryCatch
    (H.await (sendAffiliateMessage cfg lead text))
    (fun err =>
       H.modify (setError (Some (message err))) ;;;
       H.throw err).

Definition handleLoadComments (cfg : Config) (leadId : string)
  : Handler State (list AffiliateComment.t) :=
  H.tryCatch
    (H.await (fetchAffiliateCommentsForLead cfg leadId))
    (fun err =>
       H.modify (setError (Some (message err))) ;;;
       H.ret []).

End Handlers.
End App.

(** *** LeadForm *)

Module LeadForm.

Record State : Type := mk {
  formData : NewLeadInput.t;
  isSubmitting : bool;
}.

Definition setFormData (v : NewLeadInput.t) (s : State) : State := mk v (isSubmitting s).
Definition setIsSubmitting (v : bool) (s : State) : State := mk (formData s) v.

Definition initialState : NewLeadInput.t :=
  {| NewLeadInput.name := EmptyString;
     NewLeadInput.affiliateEmail := EmptyString;
     NewLeadInput.leadEmail := Some EmptyString;
     NewLeadInput.leadPhone := Some EmptyString;
     NewLeadInput.notes := Some EmptyString;
     NewLeadInput.initialMessage := Some EmptyString |}.

(** The argument of [onSubmit]: every field trimmed. *)
Definition trimmed (formData : NewLeadInput.t) : NewLeadInput.t :=
  {| NewLeadInput.name := trim (NewLeadInput.name formData);
     NewLeadInput.affiliateEmail := trim (NewLeadInput.affiliateEmail formData);
     NewLeadInput.leadEmail := trim <$> NewLeadInput.leadEmail formData;
     NewLeadInput.leadPhone := trim <$> NewLeadInput.leadPhone formData;
     NewLeadInput.notes := trim <$> NewLeadInput.notes formData;
     NewLeadInput.initialMessage := trim <$> NewLeadInput.initialMessage formData |}.

Section Handlers.
Context {P : Type}.
Local Open Scope handler_scope.

Definition handleSubmit (onSubmit : NewLeadInput.t -> Handler P unit)
  : Handler (State * P) unit :=
  page <- H.get ;;
  let formData := formData page.1 in
  if negb (truthy (trim (NewLeadInput.name formData)))
     || negb (truthy (trim (NewLeadInput.affiliateEmail formData)))
  then H.ret tt
  else
    H.self (H.modify (setIsSubmitting true)) ;;;
    H.tryFinally
      (H.tryCatch
         (H.parent (onSubmit (trimmed formData)) ;;;
          H.self (H.modify (setFormData initialState)))
         (fun _ => H.ret tt))
      (H.self (H.modify (setIsSubmitting false))).

End Handlers.
End LeadForm.

(** *** LeadsTable *)

Module LeadsTable.

Definition statusLabels (st : LeadStatus) : string :=
  match st with
  | new => "New"
  | contacted => "Contacted"
  | qualified => "Qualified"
  | converted => "Converted"
  | lost => "Lost"
  | unknown => "Unknown"
  end.

Definition safeText `{Engine} (v : value) (fallback : string) : string :=
  match v with
  | Str s => if truthy (trim s) then s else fallback
  | Num n => NumberToString n
  | _ => fallback
  end.

Definition isUserMessage `{Engine} (author : value) : bool :=
  bool_decide (toLowerCase (safeText author EmptyString) = "you").

(** A property typed [string | undefined], seen as a value. *)
Definition ofOptional (s : option string) : value :=
  match s with
  | Some s => Str s
  | None => Undefined
  end.

Record State : Type := mk {
  selectedLead : option Lead.t;
  isOpen : bool;
  messageText : string;
  isSendingMessage : bool;
  comments : list AffiliateComment.t;
  isCommentsLoading : bool;
}.

Definition setSelectedLead (v : option Lead.t) (s : State) : State :=
  mk v (isOpen s) (messageText s) (isSendingMessage s) (comments s) (isCommentsLoading s).
Definition setIsOpen (v : bool) (s : State) : State :=
  mk (selectedLead s) v (messageText s) (isSendingMessage s) (comments s)
     (isCommentsLoading s).
Definition setMessageText (v : string) (s : State) : State :=
  mk (selectedLead s) (isOpen s) v (isSendingMessage s) (comments s) (isCommentsLoading s).
Definition setIsSendingMessage (v : bool) (s : State) : State :=
  mk (selectedLead s) (isOpen s) (messageText s) v (comments s) (isCommentsLoading s).
Definition setComments (v : list AffiliateComment.t) (s : State) : State :=
  mk (selectedLead s) (isOpen s) (messageText s) (isSendingMessage s) v
     (isCommentsLoading s).
Definition setIsCommentsLoading (v : bool) (s : State) : State :=
  mk (selectedLead s) (isOpen s) (messageText s) (isSendingMessage s) (comments s) v.

Section Handlers.
Context {P : Type}.
Variable onRefresh : Handler P unit.
Variable onSendMessage : Lead.t -> string -> Handler P unit.
Variable onLoadComments : string -> Handler P (list AffiliateComment.t).
Local Open Scope handler_scope.

Definition loadComments (leadId : string) : Handler (State * P) unit :=
  H.self (H.modify (setComments [])) ;;;
  H.self (H.modify (setIsCommentsLoading true)) ;;;
  H.tryFinally
    (loaded <- H.parent (onLoadComments leadId) ;;
     H.self (H.modify (setComments loaded)))
    (H.self (H.modify (setIsCommentsLoading false))).

Definition handleRowClick (lead : Lead.t) : Handler (State * P) unit :=
  H.self (H.modify (setSelectedLead (Some lead))) ;;;
  H.self (H.modify (setIsOpen true)) ;;;
  H.self (H.modify (setMessageText EmptyString)) ;;;
  loadComments (Lead.id lead).

Definition handleSendMessage : Handler (State * P) unit :=
  page <- H.get ;;
  match selectedLead page.1 with
  | None => H.ret tt
  | Some selected =>
      let text := messageText page.1 in
      if negb (truthy (trim text)) then H.ret tt
      else
        H.self (H.modify (setIsSendingMessage true)) ;;;
        H.tryFinally
          (H.tryCatch
             (H.parent (onSendMessage selected (trim text)) ;;;
              H.self (H.modify (setMessageText EmptyString)) ;;;
              loadComments (Lead.id selected) ;;;
              H.parent onRefresh)
             (fun _ => H.ret tt))
          (H.self (H.modify (setIsSendingMessage false)))
  end.

End Handlers.
End LeadsTable.

(** ** Vocabulary of the further properties *)

(** The request that [fetchLeads] sends. *)
Definition leadsRequest (cfg : Config) (baseUrl : string) : Request :=
  {| method := GET; url := baseUrl;
     search := Some [("sort[0][field]", fieldLatestUpdate cfg);
                     ("sort[0][direction]", "desc")];
     headers := getHeaders cfg; body := None |}.

(** The field map and the request that [sendAffiliateMessage] sends. *)
Definition messageFields (cfg : Config) (lead : Lead.t) (text : string)
  : gmap string value :=
  let fields : gmap string value :=
    <[affiliateCommentsLeadLinkField cfg := Arr [Str (Lead.id lead)]]>
      (<[affiliateCommentsTextField cfg := Str text]> ∅) in
  if truthy (affiliateCommentsAuthorField cfg)
  then assignString fields (affiliateCommentsAuthorField cfg) "You"
  else fields.

Definition messageRequest (cfg : Config) (baseUrl : string) (lead : Lead.t) (text : string)
  : Request :=
  {| method := POST; url := baseUrl; search := None; headers := getHeaders cfg;
     body := Some (createBody (messageFields cfg lead text)) |}.

(** The three comment columns have three different names. *)
Definition commentColumnsApart (cfg : Config) : Prop :=
  affiliateCommentsTextField cfg <> affiliateCommentsLeadLinkField cfg
  /\ affiliateCommentsTextField cfg <> affiliateCommentsAuthorField cfg
  /\ affiliateCommentsLeadLinkField cfg <> affiliateCommentsAuthorField cfg.

(** A lead and a page of leads for the examples. *)
Definition exampleLead : Lead.t :=
  {| Lead.id := "recLEAD"; Lead.name := "Ada"; Lead.status := new;
     Lead.createdTime := mkDate (Some 1704067200000%Z);
     Lead.latestUpdate := None; Lead.psRepEmail := None; Lead.ccComments := Finite 0;
     Lead.ccUpdateTime := None; Lead.leadEmail := None; Lead.leadPhone := None;
     Lead.notes := None; Lead.affiliateComments := None |}.

Definition leadsUrl : string := "https://api.airtable.com/v0/app1/tbl1".

Definition exampleLeadRecords : list AirtableRecord.t :=
  [AirtableRecord.mk "rec1" "2024-01-02T00:00:00.000Z"
     {["Name" := Str "Ada"; "Status" := Str "Contacted"]};
   AirtableRecord.mk "rec2" "2024-01-01T00:00:00.000Z"
     {["Name" := Str "Grace"; "Status" := Str "New"; "CC Comments" := Str "7"]}].

(** The comments that the table shows after a load. *)
Definition shownComments (o : completion (list AffiliateComment.t))
  : list AffiliateComment.t :=
  match o with
  | Return loaded => loaded
  | Throw _ => []
  end.

(** The state of [App] after a load of comments. *)
Definition afterComments (o : completion (list AffiliateComment.t)) (app : App.State)
  : App.State :=
  match o with
  | Return _ => app
  | Throw e =>
      App.mk (App.leads app) (App.isRefreshing app) (App.isInitialLoading app)
        (Some (message e))
  end.

(** Two threads of the example lead, as the store answers the filtered
    query.  The first holds a comment of spaces between two comments
    fetched out of order.  The second holds a record whose creation time
    is not a date between a later and an earlier comment. *)
Definition blankComments : list AirtableRecord.t :=
  [AirtableRecord.mk "c1" "2024-01-03T00:00:00.000Z"
     {["Comment" := Str "third"; "Lead" := Arr [Str "recLEAD"]]};
   AirtableRecord.mk "cB" "2024-01-02T00:00:00.000Z"
     {["Comment" := Str "   "; "Lead" := Arr [Str "recLEAD"]]};
   AirtableRecord.mk "c2" "2024-01-01T00:00:00.000Z"
     {["Comment" := Str "first"; "Lead" := Arr [Str "recLEAD"]]}].

Definition blankWorld : World :=
  {| script := [Return (okResponse (Payload.mk blankComments None None))]; sent := [] |}.

Definition undatedComments : list AirtableRecord.t :=
  [AirtableRecord.mk "c3" "2024-01-02T00:00:00.000Z"
     {["Comment" := Str "later"; "Lead" := Arr [Str "recLEAD"]]};
   AirtableRecord.mk "cX" "not a date"
     {["Comment" := Str "undated"; "Lead" := Arr [Str "recLEAD"]]};
   AirtableRecord.mk "c1" "2024-01-01T00:00:00.000Z"
     {["Comment" := Str "earlier"; "Lead" := Arr [Str "recLEAD"]]}].

Definition undatedWorld : World :=
  {| script := [Return (okResponse (Payload.mk undatedComments None None))]; sent := [] |}.

(** ** Facts about the built-ins *)

Lemma truthy_orElse (a : option string) (d : string) :
  truthy d = true -> truthy (orElse a d) = true.
Proof.
  intros Hd. destruct a as [s|]; simpl; [|exact Hd].
  destruct (truthy s) eqn:Hs; [exact Hs | exact Hd].
Qed.

Lemma lowerUnit_idempotent (c : ascii) : lowerUnit (lowerUnit c) = lowerUnit c.
Proof. destruct c as [[] [] [] [] [] [] [] []]; reflexivity. Qed.

Lemma toLowerCase_idempotent (s : string) : toLowerCase (toLowerCase s) = toLowerCase s.
Proof.
  induction s as [|c s IH]; simpl; [reflexivity|].
  now rewrite lowerUnit_idempotent, IH.
Qed.

(** ** Configuration *)

(** C10. Whatever the environment holds, [isMessagingConfigured] answers
    [true]: the comments table, the lead-link column and the comment-text
    column each fall back to a non-empty literal. *)
Theorem isMessagingConfigured_always_true (env : gmap string string) :
  isMessagingConfigured (config env) = true.
Proof.
  unfold isMessagingConfigured, config; simpl.
  rewrite !truthy_orElse; reflexivity.
Qed.

(** ** Status decoding *)

Lemma normalizeStatus_literal (s : string) (st : LeadStatus) :
  st <> unknown -> (normalizeStatus (Str s) = st <-> toLowerCase s = literal st).
Proof.
  intros Hst. unfold normalizeStatus.
  repeat case_decide; destruct st; simpl; split; intros Heq;
    try congruence; try reflexivity.
Qed.

(** C2, as the code has it.  A raw value decodes to one of the five known
    statuses exactly when it is a string whose lower-casing is that
    status's literal; every other value (a non-string, the empty string,
    a string with surrounding white space) decodes to [unknown].  Decoding
    does not depend on case: strings with the same lower-casing decode
    alike, so NEW and new both give [new], while the untrimmed string
    "New " gives [unknown]. *)
Theorem normalizeStatus_decoding :
  (forall (raw : value) (st : LeadStatus),
      st <> unknown ->
      (normalizeStatus raw = st <-> exists s, raw = Str s /\ toLowerCase s = literal st))
  /\ (forall s, normalizeStatus (Str (toLowerCase s)) = normalizeStatus (Str s))
  /\ (forall s s', toLowerCase s = toLowerCase s' ->
                   normalizeStatus (Str s) = normalizeStatus (Str s'))
  /\ normalizeStatus (Str "NEW") = new
  /\ normalizeStatus (Str "new") = new
  /\ normalizeStatus (Str "New ") = unknown
  /\ normalizeStatus (Str EmptyString) = unknown
  /\ (forall n, normalizeStatus (Num n) = unknown)
  /\ normalizeStatus Null = unknown
  /\ normalizeStatus Undefined = unknown.
Proof.
  split; [|split; [|split]].
  - intros raw st Hst. split.
    + intros Hraw. destruct raw as [| | | |s| |]; simpl in Hraw; try congruence.
      exists s. split; [reflexivity|]. now apply normalizeStatus_literal.
    + intros (s & -> & Hs). now apply normalizeStatus_literal.
  - intros s. unfold normalizeStatus. now rewrite toLowerCase_idempotent.
  - intros s s' Heq. unfold normalizeStatus. now rewrite Heq.
  - repeat split; reflexivity.
Qed.

(** C2 as stated fails: NEW and new decode to the same status, but the
    untrimmed "New " does not decode to it. *)
Lemma normalizeStatus_untrimmed_differs :
  ~ (normalizeStatus (Str "NEW") = normalizeStatus (Str "new")
     /\ normalizeStatus (Str "new") = normalizeStatus (Str "New ")).
Proof. intros [_ Habs]. vm_compute in Habs. discriminate Habs. Qed.

(** ** Numeric decoding *)

Section Counts.
Context `{Engine}.

Lemma parseNumber_finite (v : value) (q : Q) : isFinite (parseNumber v (Finite q)) = true.
Proof.
  destruct v as [| | |n|s| |]; simpl; try reflexivity.
  - destruct (isFinite n) eqn:Hn; [exact Hn | reflexivity].
  - destruct (isFinite (StringToNumber s)) eqn:Hs; [exact Hs | reflexivity].
Qed.

(** C5, as the code has it.  The decoded partner-comment count is the
    value of [parseNumber] on the raw field with fallback 0, and it is
    always a finite number: a finite number decodes to itself, a string
    whose numeric conversion is finite decodes to that number, and every
    other value (non-numeric string, non-finite number, absent field,
    any other type) decodes to 0.  Decoding is a total function. *)
Theorem ccComments_decoding (cfg : Config) (record : AirtableRecord.t) :
  let raw := get (AirtableRecord.fields record) (fieldCcComments cfg) in
  let count := Lead.ccComments (mapRecordToLead cfg record) in
  isFinite count = true
  /\ (forall n, raw = Num n -> isFinite n = true -> count = n)
  /\ (forall s, raw = Str s -> isFinite (StringToNumber s) = true -> count = StringToNumber s)
  /\ (forall n, raw = Num n -> isFinite n = false -> count = Finite 0)
  /\ (forall s, raw = Str s -> isFinite (StringToNumber s) = false -> count = Finite 0)
  /\ ((forall n, raw <> Num n) -> (forall s, raw <> Str s) -> count = Finite 0).
Proof.
  simpl. repeat split.
  - apply parseNumber_finite.
  - intros n -> Hn. simpl. now rewrite Hn.
  - intros s -> Hs. simpl. now rewrite Hs.
  - intros n -> Hn. simpl. now rewrite Hn.
  - intros s -> Hs. simpl. now rewrite Hs.
  - intros Hnum Hstr.
    destruct (get (AirtableRecord.fields record) (fieldCcComments cfg)) as [| | |n|s| |];
      simpl; try reflexivity.
    + now destruct (Hnum n).
    + now destruct (Hstr s).
Qed.

End Counts.

(** C5 as stated fails: under the default configuration a record whose
    count column holds the number -3 decodes to -3, which is not a
    non-negative integer. *)
Lemma ccComments_negative :
  let record := AirtableRecord.mk "rec1" "2024-01-01T00:00:00.000Z"
                  {["CC Comments" := Num (Finite (-3))]} in
  ~ isCount (Lead.ccComments (@mapRecordToLead exampleEngine (config ∅) record)).
Proof.
  intros record (q & k & Hq & Hk).
  vm_compute in Hq. injection Hq as <-.
  unfold Qeq in Hk. simpl in Hk. lia.
Qed.

(** ** Guards on the required settings *)

Lemma getBaseUrl_absent (cfg : Config) (s : RequiredSetting) :
  absent cfg s -> getBaseUrl cfg = Throw (Error baseUrlError).
Proof.
  unfold absent, getBaseUrl. destruct s; simpl; intros ->; simpl;
    rewrite ?orb_true_r; reflexivity.
Qed.

Lemma getCommentsBaseUrl_absent (cfg : Config) (s : RequiredSetting) :
  s <> TableId -> absent cfg s -> getCommentsBaseUrl cfg = Throw (Error commentsBaseUrlError).
Proof.
  unfold absent, getCommentsBaseUrl. destruct s; simpl; intros Hs; try congruence;
    intros ->; simpl; rewrite ?orb_true_r; reflexivity.
Qed.

Section Guards.
Context `{Engine}.

(** C9, as the code has it.  When a required setting is absent, each lead
    operation fails with the fixed error of [getBaseUrl] and, unless the
    absent setting is the primary table, each comment operation fails with
    the fixed error of [getCommentsBaseUrl]; the world is left as it was:
    no request is sent and no response is consumed.  Each of the two
    messages names all three settings that its guard tests, whichever of
    them is absent. *)
Theorem missing_setting_fails_before_network
    (cfg : Config) (s : RequiredSetting) (w : World) :
  absent cfg s ->
  fetchLeads cfg w = Some (Throw (Error baseUrlError), w)
  /\ (forall input, createLead cfg input w = Some (Throw (Error baseUrlError), w))
  /\ (s <> TableId ->
      (forall lead text,
          sendAffiliateMessage cfg lead text w = Some (Throw (Error commentsBaseUrlError), w))
      /\ (forall leadId,
             fetchAffiliateCommentsForLead cfg leadId w
             = Some (Throw (Error commentsBaseUrlError), w)))
  /\ (forall s', includes baseUrlError (envName s') = true)
  /\ includes commentsBaseUrlError (envName Token) = true
  /\ includes commentsBaseUrlError (envName BaseId) = true
  /\ includes commentsBaseUrlError "VITE_AIRTABLE_AFFILIATE_COMMENTS_TABLE_ID" = true.
Proof.
  intros Habs. pose proof (getBaseUrl_absent cfg s Habs) as Hbase.
  split; [|split; [|split; [|split]]].
  - unfold fetchLeads, bind. now rewrite Hbase.
  - intros input. unfold createLead, bind. now rewrite Hbase.
  - intros Hs. pose proof (getCommentsBaseUrl_absent cfg s Hs Habs) as Hcomments.
    split.
    + intros lead text. unfold sendAffiliateMessage, bind. now rewrite Hcomments.
    + intros leadId. unfold fetchAffiliateCommentsForLead, bind. now rewrite Hcomments.
  - intros []; vm_compute; reflexivity.
  - repeat split; vm_compute; reflexivity.
Qed.

End Guards.

(** Witness of C9: the token is absent, base and table are set. *)
Lemma missing_setting_fails_before_network_witness :
  let cfg := config {["VITE_AIRTABLE_BASE_ID" := "app1"; "VITE_AIRTABLE_TABLE_ID" := "tbl1"]} in
  let w := {| script := []; sent := [] |} in
  absent cfg Token
  /\ @fetchLeads exampleEngine cfg w = Some (Throw (Error baseUrlError), w).
Proof.
  intros cfg w. split; [reflexivity|].
  apply (@missing_setting_fails_before_network exampleEngine cfg Token w). reflexivity.
Defined.

(** C9 as stated fails: with only the token absent, the error of
    [getBaseUrl] also names the base identifier, which is set; the message
    does not tell which setting is missing. *)
Lemma baseUrlError_names_present_setting :
  let cfg := config {["VITE_AIRTABLE_BASE_ID" := "app1"; "VITE_AIRTABLE_TABLE_ID" := "tbl1"]} in
  ~ (forall e, getBaseUrl cfg = Throw e ->
               forall s, includes (message e) (envName s) = true <-> absent cfg s).
Proof.
  intros cfg Hclaim.
  specialize (Hclaim (Error baseUrlError) eq_refl BaseId).
  destruct Hclaim as [Hmissing _].
  assert (Hnames : includes (message (Error baseUrlError)) (envName BaseId) = true)
    by (vm_compute; reflexivity).
  specialize (Hmissing Hnames). vm_compute in Hmissing. discriminate Hmissing.
Qed.

(** ** Comment text resolution *)

Section CommentText.
Context `{Engine}.

Lemma orElse_empty (a : option string) : orElse a EmptyString = default EmptyString a.
Proof. destruct a as [[|c s]|]; reflexivity. Qed.

Lemma getFirstTextField_None (fields : gmap string value) (candidates : list string) :
  getFirstTextField fields candidates = None
  <-> Forall (fun c => parseText (get fields c) = None) candidates.
Proof.
  induction candidates as [|c rest IH]; simpl.
  - split; [constructor | reflexivity].
  - destruct (parseText (get fields c)) as [t|] eqn:Hc.
    + split; [discriminate|]. intros Hall. inversion Hall; congruence.
    + rewrite IH. split; [now constructor | now inversion 1].
Qed.

Lemma getFirstTextField_Some (fields : gmap string value) (candidates : list string)
    (t : string) :
  getFirstTextField fields candidates = Some t
  <-> exists before c after,
        candidates = before ++ c :: after
        /\ Forall (fun c' => parseText (get fields c') = None) before
        /\ parseText (get fields c) = Some t.
Proof.
  induction candidates as [|c rest IH]; simpl.
  - split; [discriminate|]. intros (before & c & after & Heq & _).
    now destruct before.
  - destruct (parseText (get fields c)) as [t'|] eqn:Hc.
    + split.
      * intros [= ->]. exists [], c, rest. repeat split; [constructor | exact Hc].
      * intros (before & c' & after & Heq & Hbefore & Hc').
        destruct before as [|b before]; simpl in Heq; injection Heq as -> ->.
        -- congruence.
        -- inversion Hbefore; congruence.
    + rewrite IH. split.
      * intros (before & c' & after & -> & Hbefore & Hc').
        exists (c :: before), c', after. repeat split; [now constructor | exact Hc'].
      * intros (before & c' & after & Heq & Hbefore & Hc').
        destruct before as [|b before]; simpl in Heq; injection Heq as -> ->.
        -- congruence.
        -- exists before, c', after. repeat split; [now inversion Hbefore | exact Hc'].
Qed.

Lemma commentOfRecord_text (cfg : Config) (record : AirtableRecord.t) :
  AffiliateComment.text (commentOfRecord cfg record)
  = default EmptyString
      (getFirstTextField (AirtableRecord.fields record) (textCandidates cfg)).
Proof. unfold commentOfRecord. cbn [AffiliateComment.text]. apply orElse_empty. Qed.

(** C3, as the code has it.  The text of a comment is resolved over the
    candidates: the configured text column, then Comment, Message,
    Affiliate Comment, Text and Name, in that order.  The first candidate
    whose field decodes to a text decides, also when that text is the
    empty string.  A record whose only field is Message with the value
    hello resolves to hello under every configuration.  When no candidate
    decodes, the text is empty and the repository layer drops the
    comment. *)
Theorem comment_text_resolution (cfg : Config) (record : AirtableRecord.t) :
  let fields := AirtableRecord.fields record in
  let text := AffiliateComment.text (commentOfRecord cfg record) in
  textCandidates cfg
  = affiliateCommentsTextField cfg
    :: ["Comment"; "Message"; "Affiliate Comment"; "Text"; "Name"]
  /\ (forall before c after t,
         textCandidates cfg = before ++ c :: after ->
         Forall (fun c' => parseText (get fields c') = None) before ->
         parseText (get fields c) = Some t ->
         text = t)
  /\ (fields = {["Message" := Str "hello"]} -> text = "hello")
  /\ (Forall (fun c => parseText (get fields c) = None) (textCandidates cfg) ->
      text = EmptyString /\ commentsOfRecords cfg [record] = []).
Proof.
  intros fields text. subst text. rewrite commentOfRecord_text. fold fields.
  split; [reflexivity|]. split; [|split].
  - intros before c after t Heq Hbefore Hc.
    rewrite (proj2 (getFirstTextField_Some fields (textCandidates cfg) t)); [reflexivity|].
    now exists before, c, after.
  - intros Hfields. rewrite Hfields.
    unfold textCandidates, getFirstTextField, get.
    destruct (decide (affiliateCommentsTextField cfg = "Message")) as [->|Hne].
    + now rewrite lookup_singleton_eq.
    + rewrite lookup_singleton_ne by congruence. simpl.
      rewrite lookup_singleton_ne by discriminate. simpl.
      now rewrite lookup_singleton_eq.
  - intros Hnone. apply getFirstTextField_None in Hnone. rewrite Hnone.
    split; [reflexivity|].
    unfold commentsOfRecords. cbn [List.map List.filter].
    replace (hasText (commentOfRecord cfg record)) with false; [reflexivity|].
    unfold hasText. rewrite commentOfRecord_text. fold fields. now rewrite Hnone.
Qed.

End CommentText.

(** Witness of C3: the record whose only field is Message. *)
Lemma comment_text_resolution_witness :
  let record := AirtableRecord.mk "rec1" "2024-01-01T00:00:00.000Z"
                  {["Message" := Str "hello"]} in
  AffiliateComment.text (@commentOfRecord exampleEngine (config ∅) record) = "hello".
Proof.
  intros record.
  apply (@comment_text_resolution exampleEngine (config ∅) record). reflexivity.
Defined.

(** C3 as stated fails: under the default configuration, a record with an
    empty Comment and a Message of hello resolves to the empty text,
    although taking the first candidate with non-empty text would give
    hello. *)
Lemma comment_text_empty_candidate_wins :
  let record := AirtableRecord.mk "rec1" "2024-01-01T00:00:00.000Z"
                  {["Comment" := Str EmptyString; "Message" := Str "hello"]} in
  AffiliateComment.text (@commentOfRecord exampleEngine (config ∅) record) = EmptyString
  /\ @spec_firstNonEmptyText exampleEngine (AirtableRecord.fields record)
       (textCandidates (config ∅)) = Some "hello"
  /\ AffiliateComment.text (@commentOfRecord exampleEngine (config ∅) record)
     <> default EmptyString
          (@spec_firstNonEmptyText exampleEngine (AirtableRecord.fields record)
             (textCandidates (config ∅))).
Proof.
  intros record. repeat split; try (vm_compute; reflexivity).
  vm_compute. discriminate.
Qed.

(** ** Creating a lead *)

Section Create.
Context `{Engine}.

Lemma createLead_unfold (cfg : Config) (input : NewLeadInput.t) (w : World)
    (baseUrl : string) (outcome : completion Response) (rest : list (completion Response)) :
  getBaseUrl cfg = Return baseUrl ->
  script w = outcome :: rest ->
  createLead cfg input w
  = let w' := {| script := rest; sent := sent w ++ [createRequest cfg baseUrl input] |} in
    match outcome with
    | Throw e => Some (Throw e, w')
    | Return response =>
        if ok response then
          match json response with
          | Throw e => Some (Throw e, w')
          | Return payload =>
              match Payload.records payload with
              | [] => Some (Throw (Error notCreatedError), w')
              | created :: _ => Some (Return (mapRecordToLead cfg created), w')
              end
          end
        else
          Some (Throw (Error (orElse
                                (match json response with
                                 | Return errorPayload => Payload.errorMessage errorPayload
                                 | Throw _ => None
                                 end)
                                (genericFailure response))), w')
    end.
Proof.
  intros Hbase Hscript. unfold createLead, bind, lift, fetch, throwIfNotOk.
  rewrite Hbase. unfold ret at 1. rewrite Hscript.
  destruct outcome as [response|e]; [|reflexivity].
  destruct (ok response); [|reflexivity]. unfold ret at 1.
  destruct (json response) as [payload|e]; [|reflexivity]. unfold ret at 1.
  destruct (Payload.records payload); reflexivity.
Qed.

(** C7.  With the required settings present, [createLead] sends one POST
    request and then: a rejected [fetch] propagates its error; a
    non-success response fails with the message of [throwIfNotOk]; a
    success response whose body cannot be read propagates that error; a
    success response fails with the error that the store did not return
    the created lead exactly when it carries zero records, and otherwise
    the result is the first record decoded by [mapRecordToLead]. *)
Theorem createLead_outcomes (cfg : Config) (input : NewLeadInput.t) (w : World)
    (baseUrl : string) (outcome : completion Response) (rest : list (completion Response)) :
  getBaseUrl cfg = Return baseUrl ->
  script w = outcome :: rest ->
  let w' := {| script := rest; sent := sent w ++ [createRequest cfg baseUrl input] |} in
  (forall e, outcome = Throw e -> createLead cfg input w = Some (Throw e, w'))
  /\ (forall response, outcome = Return response -> ok response = false ->
        exists m, createLead cfg input w = Some (Throw (Error m), w')
                  /\ (forall p em, json response = Return p ->
                                   Payload.errorMessage p = Some em -> truthy em = true ->
                                   m = em)
                  /\ ((forall p, json response = Return p ->
                                 truthyOpt (Payload.errorMessage p) = false) ->
                      m = genericFailure response))
  /\ (forall response e, outcome = Return response -> ok response = true ->
        json response = Throw e -> createLead cfg input w = Some (Throw e, w'))
  /\ (forall response payload, outcome = Return response -> ok response = true ->
        json response = Return payload ->
        (Payload.records payload = []
         <-> createLead cfg input w = Some (Throw (Error notCreatedError), w'))
        /\ (forall created others, Payload.records payload = created :: others ->
              createLead cfg input w = Some (Return (mapRecordToLead cfg created), w')))
  /\ includes notCreatedError "did not return created lead" = true.
Proof.
  intros Hbase Hscript w'.
  pose proof (createLead_unfold cfg input w baseUrl outcome rest Hbase Hscript) as Hrun.
  cbv zeta in Hrun. fold w' in Hrun.
  split; [|split; [|split; [|split]]].
  - intros e ->. exact Hrun.
  - intros response -> Hok. rewrite Hok in Hrun.
    eexists. split; [exact Hrun|]. split.
    + intros p em -> -> Hem. simpl. now rewrite Hem.
    + intros Hnone. destruct (json response) as [p|e]; [|reflexivity].
      specialize (Hnone p eq_refl).
      destruct (Payload.errorMessage p) as [em|]; [|reflexivity].
      simpl in Hnone |- *. now rewrite Hnone.
  - intros response e -> Hok Hjson. now rewrite Hok, Hjson in Hrun.
  - intros response payload -> Hok Hjson. rewrite Hok, Hjson in Hrun. split.
    + split.
      * intros Hnil. now rewrite Hnil in Hrun.
      * intros Hfail. rewrite Hrun in Hfail.
        destruct (Payload.records payload); [reflexivity | discriminate Hfail].
    + intros created others Hrecords. now rewrite Hrecords in Hrun.
  - vm_compute. reflexivity.
Qed.

End Create.

(** ** Encoding a new lead and decoding it back *)

Lemma setIfConfigured_other (fields : gmap string value) (key v : option string)
    (k : string) :
  key <> Some k -> setIfConfigured fields key v !! k = fields !! k.
Proof.
  intros Hk. unfold setIfConfigured.
  destruct key as [k'|], v as [s|]; try reflexivity.
  destruct (truthy k' && truthy s); [|reflexivity].
  unfold assignString. case_decide; [reflexivity|].
  apply lookup_insert_ne. congruence.
Qed.

Lemma setIfConfigured_lookup (fields : gmap string value) (key v : option string)
    (k : string) (x : value) :
  setIfConfigured fields key v !! k = Some x ->
  fields !! k = Some x
  \/ exists s, key = Some k /\ v = Some s /\ truthy k = true /\ truthy s = true /\ x = Str s.
Proof.
  unfold setIfConfigured.
  destruct key as [k'|], v as [s|]; auto.
  destruct (truthy k') eqn:Hk', (truthy s) eqn:Hs; simpl; auto.
  unfold assignString. case_decide; [auto|].
  destruct (decide (k' = k)) as [->|Hne].
  - rewrite lookup_insert_eq. intros [= <-]. right. now exists s.
  - rewrite lookup_insert_ne by exact Hne. auto.
Qed.

Section RoundTrip.
Context `{Engine}.

Lemma createLead_fields_always_sent (cfg : Config) (input : NewLeadInput.t) (k : string) :
  (forall k', In (Some k') (optionalColumns cfg) -> k' <> k) ->
  createLead_fields cfg input !! k
  = (<[fieldStatus cfg := Str "New"]>
       (<[fieldRepEmail cfg := Str (NewLeadInput.affiliateEmail input)]>
          (<[fieldName cfg := Str (NewLeadInput.name input)]> (∅ : gmap string value)))) !! k.
Proof.
  intros Hk. unfold createLead_fields.
  rewrite !setIfConfigured_other; [reflexivity|..];
    intros Heq; apply (Hk k); try reflexivity;
    rewrite <- Heq; unfold optionalColumns; simpl; auto.
Qed.

(** C8, as the code has it.  The outgoing field map holds nothing but the
    three always-sent columns and, for each optional input that is not
    empty and whose column is configured, that column with the input's
    value.  When the name is not empty and the name, rep-email and status
    columns are pairwise distinct and differ from every optional column,
    the map sends the status literal New, and decoding a created record
    that carries the map recovers the name, the rep email and the status
    [new]. *)
Theorem createLead_round_trip (cfg : Config) (input : NewLeadInput.t)
    (id createdTime : string) :
  truthy (NewLeadInput.name input) = true ->
  columnsApart cfg ->
  let fields := createLead_fields cfg input in
  let lead := mapRecordToLead cfg (AirtableRecord.mk id createdTime fields) in
  Lead.name lead = NewLeadInput.name input
  /\ Lead.psRepEmail lead = Some (NewLeadInput.affiliateEmail input)
  /\ Lead.status lead = new
  /\ fields !! fieldStatus cfg = Some (Str "New")
  /\ (forall k v, fields !! k = Some v ->
        k = fieldName cfg \/ k = fieldRepEmail cfg \/ k = fieldStatus cfg
        \/ exists column entered s,
             In (column, entered) (optionalFields cfg input)
             /\ column = Some k /\ entered = Some s
             /\ truthy k = true /\ truthy s = true /\ v = Str s).
Proof.
  intros Hname (Hnr & Hns & Hrs & Hopt) fields lead.
  assert (Hsent : forall k, (k = fieldName cfg \/ k = fieldRepEmail cfg \/ k = fieldStatus cfg) ->
    fields !! k = (<[fieldStatus cfg := Str "New"]>
       (<[fieldRepEmail cfg := Str (NewLeadInput.affiliateEmail input)]>
          (<[fieldName cfg := Str (NewLeadInput.name input)]> (∅ : gmap string value)))) !! k).
  { intros k Hk. apply createLead_fields_always_sent. intros k' Hin.
    destruct (Hopt k' Hin) as (? & ? & ?). intuition congruence. }
  assert (HfName : fields !! fieldName cfg = Some (Str (NewLeadInput.name input))).
  { rewrite Hsent by auto.
    rewrite lookup_insert_ne by congruence. rewrite lookup_insert_ne by congruence.
    apply lookup_insert_eq. }
  assert (HfRep : fields !! fieldRepEmail cfg = Some (Str (NewLeadInput.affiliateEmail input))).
  { rewrite Hsent by auto.
    rewrite lookup_insert_ne by congruence. apply lookup_insert_eq. }
  assert (HfStatus : fields !! fieldStatus cfg = Some (Str "New")).
  { rewrite Hsent by auto. apply lookup_insert_eq. }
  subst lead. unfold mapRecordToLead, get.
  cbn [Lead.name Lead.psRepEmail Lead.status AirtableRecord.fields].
  fold fields. rewrite HfName, HfRep, HfStatus.
  split; [|split; [|split; [|split]]].
  - simpl. now rewrite Hname.
  - reflexivity.
  - reflexivity.
  - reflexivity.
  - intros k v. subst fields. unfold createLead_fields. intros Hlookup.
    apply setIfConfigured_lookup in Hlookup as [Hlookup|(s & Hc & Hv & Hk & Hs & ->)];
      [|right; right; right; eexists _, _, s; repeat split; eauto;
        unfold optionalFields; simpl; rewrite <- Hc, <- Hv; auto].
    apply setIfConfigured_lookup in Hlookup as [Hlookup|(s & Hc & Hv & Hk & Hs & ->)];
      [|right; right; right; eexists _, _, s; repeat split; eauto;
        unfold optionalFields; simpl; rewrite <- Hc, <- Hv; auto].
    apply setIfConfigured_lookup in Hlookup as [Hlookup|(s & Hc & Hv & Hk & Hs & ->)];
      [|right; right; right; eexists _, _, s; repeat split; eauto;
        unfold optionalFields; simpl; rewrite <- Hc, <- Hv; auto].
    apply setIfConfigured_lookup in Hlookup as [Hlookup|(s & Hc & Hv & Hk & Hs & ->)];
      [|right; right; right; eexists _, _, s; repeat split; eauto;
        unfold optionalFields; simpl; rewrite <- Hc, <- Hv; auto].
    destruct (decide (k = fieldStatus cfg)) as [|H1]; [auto|].
    destruct (decide (k = fieldRepEmail cfg)) as [|H2]; [auto|].
    destruct (decide (k = fieldName cfg)) as [|H3]; [auto|].
    rewrite !lookup_insert_ne in Hlookup by congruence.
    rewrite lookup_empty in Hlookup. discriminate Hlookup.
Qed.

End RoundTrip.

Lemma exampleEnv_columnsApart : columnsApart (config exampleEnv).
Proof.
  unfold columnsApart.
  split; [vm_compute; discriminate|]. split; [vm_compute; discriminate|].
  split; [vm_compute; discriminate|].
  intros k Hin. vm_compute in Hin.
  destruct Hin as [Hk|[Hk|[Hk|[Hk|[]]]]]; injection Hk as <-;
    repeat split; vm_compute; discriminate.
Defined.

(** Witness of C8: the example input under the example environment. *)
Lemma createLead_round_trip_witness :
  let cfg := config exampleEnv in
  let input := exampleInput "Ada" in
  truthy (NewLeadInput.name input) = true
  /\ columnsApart cfg
  /\ Lead.name (@mapRecordToLead exampleEngine cfg
                  (AirtableRecord.mk "rec1" "2024-01-01T00:00:00.000Z"
                     (createLead_fields cfg input))) = "Ada".
Proof.
  intros cfg input. split; [reflexivity|]. split; [exact exampleEnv_columnsApart|].
  apply (@createLead_round_trip exampleEngine cfg input "rec1" "2024-01-01T00:00:00.000Z");
    [reflexivity | exact exampleEnv_columnsApart].
Defined.

(** C8 as stated fails, in two ways.  With every optional field entered
    and every optional column configured, an empty name decodes to the
    placeholder Unnamed Lead; and when the notes column is configured to
    be the name column, the notes overwrite the name before sending. *)
Lemma createLead_round_trip_fails :
  let decoded cfg input :=
    Lead.name (@mapRecordToLead exampleEngine cfg
                 (AirtableRecord.mk "rec1" "2024-01-01T00:00:00.000Z"
                    (createLead_fields cfg input))) in
  (allPopulated (exampleInput EmptyString)
   /\ allConfigured (config exampleEnv)
   /\ decoded (config exampleEnv) (exampleInput EmptyString) = "Unnamed Lead"
   /\ decoded (config exampleEnv) (exampleInput EmptyString)
      <> NewLeadInput.name (exampleInput EmptyString))
  /\ (let cfg := config (<["VITE_AIRTABLE_NOTES_FIELD" := "Name"]> exampleEnv) in
      allPopulated (exampleInput "Ada")
      /\ allConfigured cfg
      /\ decoded cfg (exampleInput "Ada") = "call back"
      /\ decoded cfg (exampleInput "Ada") <> NewLeadInput.name (exampleInput "Ada")).
Proof.
  intros decoded. split.
  - split; [repeat constructor|]. split; [repeat constructor|].
    split; [vm_compute; reflexivity | vm_compute; discriminate].
  - intros cfg. split; [repeat constructor|]. split; [repeat constructor|].
    split; [vm_compute; reflexivity | vm_compute; discriminate].
Qed.

(** Witness of C7: the store answers with one created record. *)
Lemma createLead_outcomes_witness :
  let cfg := config exampleEnv in
  let input := exampleInput "Ada" in
  let created := AirtableRecord.mk "rec1" "2024-01-01T00:00:00.000Z"
                   (createLead_fields cfg input) in
  let response := {| status := 200; statusText := "OK";
                     json := Return (Payload.mk [created] None None) |} in
  let w := {| script := [Return response]; sent := [] |} in
  getBaseUrl cfg = Return "https://api.airtable.com/v0/app1/tbl1"
  /\ script w = [Return response]
  /\ @createLead exampleEngine cfg input w
     = Some (Return (@mapRecordToLead exampleEngine cfg created),
             {| script := [];
                sent := [createRequest cfg "https://api.airtable.com/v0/app1/tbl1" input] |}).
Proof.
  intros cfg input created response w.
  split; [reflexivity|]. split; [reflexivity|].
  apply (@createLead_outcomes exampleEngine cfg input w
           "https://api.airtable.com/v0/app1/tbl1" (Return response) []
           eq_refl eq_refl) with (response := response) (payload := Payload.mk [created] None None)
                                 (others := []); reflexivity.
Defined.

(** ** Substrings *)

Lemma append_cons (c : ascii) (s t : string) : String c s +:+ t = String c (s +:+ t).
Proof. reflexivity. Qed.

Lemma startsWith_spec (s p : string) :
  startsWith s p = true <-> exists after, s = p +:+ after.
Proof.
  revert s. induction p as [|a p IH]; intros s.
  - destruct s; split; simpl; eauto.
  - destruct s as [|b s]; cbn [startsWith].
    + split; [discriminate | intros [after Heq]; discriminate Heq].
    + case_decide as Hab.
      * subst b. rewrite IH. split; intros [after Heq]; exists after.
        -- rewrite append_cons. now rewrite Heq.
        -- rewrite append_cons in Heq. now injection Heq.
      * split; [discriminate|]. intros [after Heq]. rewrite append_cons in Heq.
        congruence.
Qed.

Lemma includes_spec (s t : string) :
  includes s t = true <-> exists before after, s = before +:+ t +:+ after.
Proof.
  induction s as [|c s IH]; cbn [includes].
  - rewrite orb_false_r, startsWith_spec. split.
    + intros [after Heq]. now exists EmptyString, after.
    + intros (before & after & Heq). destruct before; [now exists after|discriminate Heq].
  - rewrite orb_true_iff, startsWith_spec, IH. split.
    + intros [[after Heq]|(before & after & Heq)].
      * now exists EmptyString, after.
      * exists (String c before), after. rewrite append_cons. now rewrite Heq.
    + intros (before & after & Heq). destruct before as [|b before].
      * left. now exists after.
      * right. exists before, after. rewrite append_cons in Heq. congruence.
Qed.

(** ** Pagination *)

Lemma fetchAllRecords_loop_turn (turns : nat) (cfg : Config) (baseUrl : string)
    (params : URLSearchParams.t) (records : list AirtableRecord.t) (offset : option string)
    (w : World) (outcome : completion Response) (rest : list (completion Response)) :
  script w = outcome :: rest ->
  fetchAllRecords_loop (S turns) cfg baseUrl params records offset w
  = let w' := {| script := rest;
                 sent := sent w ++ [listRequest cfg baseUrl (paramsWith offset params)] |} in
    match outcome with
    | Throw e => Some (Throw e, w')
    | Return response =>
        if ok response then
          match json response with
          | Throw e => Some (Throw e, w')
          | Return payload =>
              if truthyOpt (Payload.offset payload)
              then fetchAllRecords_loop turns cfg baseUrl params
                     (records ++ Payload.records payload) (Payload.offset payload) w'
              else Some (Return (records ++ Payload.records payload), w')
          end
        else Some (Throw (Error (failureMessage response)), w')
    end.
Proof.
  intros Hscript. cbn [fetchAllRecords_loop].
  unfold bind, fetch, throwIfNotOk, lift. rewrite Hscript.
  destruct outcome as [response|e]; [|reflexivity].
  destruct (ok response); [|reflexivity]. unfold ret at 1.
  destruct (json response) as [payload|e]; [|reflexivity]. unfold ret at 1.
  destruct (truthyOpt (Payload.offset payload)); reflexivity.
Qed.

Lemma fetchAllRecords_loop_pages (cfg : Config) (baseUrl : string)
    (params : URLSearchParams.t) (rs : list Response) (ps : list Payload.t) :
  Forall2 carries rs ps ->
  Forall (fun p => truthyOpt (Payload.offset p) = true) ps ->
  forall (final : completion Response) (rest : list (completion Response)),
  stops final ->
  forall (turns : nat) (records : list AirtableRecord.t) (offset : option string) (w : World),
  script w = List.map Return rs ++ final :: rest ->
  fetchAllRecords_loop (S (length ps + turns)) cfg baseUrl params records offset w
  = Some (lastTurn final (records ++ concat (List.map Payload.records ps)),
          {| script := rest;
             sent := sent w
                     ++ offsetRequests cfg baseUrl params
                          (offset :: List.map Payload.offset ps) |}).
Proof.
  intros Hcarry. induction Hcarry as [|r p rs ps [Hok Hjson] Hcarry IH];
    intros Htokens final rest Hstops turns records offset w Hscript.
  - simpl in Hscript. rewrite (fetchAllRecords_loop_turn _ _ _ _ _ _ _ _ _ Hscript).
    cbv zeta. simpl List.map. simpl concat. rewrite app_nil_r.
    unfold offsetRequests. simpl List.map.
    destruct final as [response|e]; [|reflexivity]. unfold lastTurn.
    destruct (ok response) eqn:Hokr; [|reflexivity].
    destruct (json response) as [payload|e] eqn:Hjsonr; [|reflexivity].
    now rewrite (Hstops response payload eq_refl (conj Hokr Hjsonr)).
  - simpl in Hscript. rewrite (fetchAllRecords_loop_turn _ _ _ _ _ _ _ _ _ Hscript).
    cbv zeta. rewrite Hok, Hjson.
    inversion Htokens as [|? ? Htoken Htokens']; subst.
    rewrite Htoken. change (length (p :: ps) + turns) with (S (length ps + turns)).
    erewrite (IH Htokens' final rest Hstops); [|reflexivity].
    cbn [script sent]. simpl List.map. simpl concat.
    unfold offsetRequests. simpl List.map.
    now rewrite <- !app_assoc.
Qed.

Lemma fetchAllRecords_pages (cfg : Config) (baseUrl : string)
    (params : URLSearchParams.t) (rs : list Response) (ps : list Payload.t)
    (final : completion Response) (rest : list (completion Response)) (w : World) :
  Forall2 carries rs ps ->
  Forall (fun p => truthyOpt (Payload.offset p) = true) ps ->
  stops final ->
  script w = List.map Return rs ++ final :: rest ->
  fetchAllRecords cfg baseUrl params w
  = Some (lastTurn final (concat (List.map Payload.records ps)),
          {| script := rest;
             sent := sent w
                     ++ offsetRequests cfg baseUrl params
                          (None :: List.map Payload.offset ps) |}).
Proof.
  intros Hcarry Htokens Hstops Hscript. unfold fetchAllRecords.
  assert (Hlen : S (length (script w)) = S (length ps + S (length rest))).
  { rewrite Hscript, length_app, length_map. simpl.
    now rewrite (Forall2_length _ _ _ Hcarry). }
  rewrite Hlen.
  apply (fetchAllRecords_loop_pages cfg baseUrl params rs ps Hcarry Htokens
           final rest Hstops (S (length rest)) [] None w Hscript).
Qed.





(** ** Comments of a lead: the fallback scan *)

Lemma linksItem_spec (leadId : string) (item : value) :
  linksItem leadId item = true
  <-> item = Str leadId
      \/ exists props, item = Obj props /\ props !! "id" = Some (Str leadId).
Proof.
  destruct item as [| | | |s| |props]; simpl;
    try (split; [discriminate | intros [Heq|(props' & Heq & _)]; discriminate Heq]).
  - rewrite bool_decide_eq_true. split.
    + intros ->. now left.
    + intros [[= ->]|(props' & Heq & _)]; [reflexivity | discriminate Heq].
  - split.
    + intros Hid. right. exists props. split; [reflexivity|].
      destruct (props !! "id") as [[| | | |s| |]|]; try discriminate Hid.
      apply bool_decide_eq_true in Hid. now subst s.
    + intros [Heq|(props' & [= <-] & Hid)]; [discriminate Heq|].
      rewrite Hid. now apply bool_decide_eq_true.
Qed.

Lemma linksValue_spec (leadId : string) (v : value) :
  linksValue leadId v = true
  <-> (exists s before after, v = Str s /\ s = before +:+ leadId +:+ after)
      \/ (exists items item,
             v = Arr items /\ In item items
             /\ (item = Str leadId
                 \/ exists props, item = Obj props /\ props !! "id" = Some (Str leadId))).
Proof.
  destruct v as [| |flag|n|s|items|props]; cbn [linksValue];
    try (split; [discriminate
                | intros [(s' & b & a & Heq & _)|(items' & item & Heq & _)];
                  discriminate Heq]).
  - rewrite includes_spec. split.
    + intros (before & after & Heq). left. now exists s, before, after.
    + intros [(s' & before & after & [= <-] & Heq)|(items' & item & Heq & _)];
        [eauto | discriminate Heq].
  - rewrite existsb_exists. split.
    + intros (item & Hin & Hlinks). right. exists items, item.
      repeat split; [exact Hin | now apply linksItem_spec].
    + intros [(s' & b & a & Heq & _)|(items' & item & [= <-] & Hin & Hlinks)];
        [discriminate Heq|].
      exists item. split; [exact Hin | now apply linksItem_spec].
Qed.

Lemma recordLinksToLead_spec (record : AirtableRecord.t) (leadId : string) :
  recordLinksToLead record leadId = true
  <-> exists k v, AirtableRecord.fields record !! k = Some v /\ linksValue leadId v = true.
Proof.
  unfold recordLinksToLead. rewrite existsb_exists. split.
  - intros (v & Hin & Hlinks). apply list_elem_of_In, list_elem_of_fmap in Hin.
    destruct Hin as ([k v'] & -> & Hin). apply elem_of_map_to_list in Hin.
    now exists k, v'.
  - intros (k & v & Hlookup & Hlinks). exists v. split; [|exact Hlinks].
    apply list_elem_of_In, list_elem_of_fmap. exists (k, v).
    split; [reflexivity | now apply elem_of_map_to_list].
Qed.

Section Fallback.
Context `{Engine}.

Lemma fetchAffiliateCommentsForLead_unfold (cfg : Config) (leadId : string) (w : World)
    (baseUrl : string) :
  getCommentsBaseUrl cfg = Return baseUrl ->
  fetchAffiliateCommentsForLead cfg leadId w
  = match fetchAllRecords cfg baseUrl (primaryParams cfg leadId) w with
    | None => None
    | Some (primary, w1) =>
        match primaryRecords primary with
        | [] =>
            match fetchAllRecords cfg baseUrl [] w1 with
            | None => None
            | Some (Throw e, w2) => Some (Throw e, w2)
            | Some (Return all, w2) =>
                Some (Return (commentsOfRecords cfg
                                (List.filter (fun record => recordLinksToLead record leadId)
                                   all)), w2)
            end
        | records => Some (Return (commentsOfRecords cfg records), w1)
        end
    end.
Proof.
  intros Hbase. unfold fetchAffiliateCommentsForLead, primaryParams.
  rewrite Hbase. unfold lift. unfold bind at 1. unfold ret at 1.
  unfold bind at 1. unfold tryCatch.
  destruct (fetchAllRecords cfg baseUrl _ w) as [[[records|e] w1]|]; [| |reflexivity].
  - destruct records as [|record records]; simpl.
    + unfold bind. destruct (fetchAllRecords cfg baseUrl [] w1) as [[[all|e] w2]|];
        reflexivity.
    + reflexivity.
  - unfold ret at 1. simpl.
    unfold bind. destruct (fetchAllRecords cfg baseUrl [] w1) as [[[all|e'] w2]|];
      reflexivity.
Qed.

(** C1.  With the comment settings present, let the primary filtered
    query end in a failure or with zero records.  The failure is not
    propagated: [fetchAffiliateCommentsForLead] goes on to fetch every
    record of the comments table without a filter.  An error of that
    second fetch is the error of the call.  Otherwise the call returns the
    comments of exactly those fetched records that link to the lead: the
    records with some field value that is a string containing the lead
    identifier, or an array with an element that is the string of the
    identifier or an object whose [id] is the identifier. *)
Theorem comments_fallback_scan (cfg : Config) (leadId : string) (w w1 : World)
    (baseUrl : string) (primary : completion (list AirtableRecord.t)) :
  getCommentsBaseUrl cfg = Return baseUrl ->
  fetchAllRecords cfg baseUrl [("filterByFormula", formulaFor cfg leadId)] w
  = Some (primary, w1) ->
  primary = Return [] \/ (exists e, primary = Throw e) ->
  (forall e w2, fetchAllRecords cfg baseUrl [] w1 = Some (Throw e, w2) ->
                fetchAffiliateCommentsForLead cfg leadId w = Some (Throw e, w2))
  /\ (forall all w2, fetchAllRecords cfg baseUrl [] w1 = Some (Return all, w2) ->
        let kept := List.filter (fun record => recordLinksToLead record leadId) all in
        fetchAffiliateCommentsForLead cfg leadId w
        = Some (Return (commentsOfRecords cfg kept), w2)
        /\ forall record,
            In record kept
            <-> In record all
                /\ exists k v,
                    AirtableRecord.fields record !! k = Some v
                    /\ ((exists s before after,
                            v = Str s /\ s = before +:+ leadId +:+ after)
                        \/ (exists items item,
                               v = Arr items /\ In item items
                               /\ (item = Str leadId
                                   \/ exists props,
                                       item = Obj props
                                       /\ props !! "id" = Some (Str leadId))))).
Proof.
  intros Hbase Hprimary Hnone.
  pose proof (fetchAffiliateCommentsForLead_unfold cfg leadId w baseUrl Hbase) as Hrun.
  unfold primaryParams in Hrun. rewrite Hprimary in Hrun.
  assert (Hrecords : primaryRecords primary = []).
  { destruct Hnone as [->|[e ->]]; reflexivity. }
  rewrite Hrecords in Hrun. split.
  - intros e w2 Hscan. now rewrite Hscan in Hrun.
  - intros all w2 Hscan kept. rewrite Hscan in Hrun. split; [exact Hrun|].
    intros record. subst kept. rewrite filter_In, recordLinksToLead_spec.
    split; intros [Hin (k & v & Hlookup & Hlinks)]; (split; [exact Hin|]);
      exists k, v; (split; [exact Hlookup|]); now apply linksValue_spec.
Qed.

End Fallback.

(** Witness of C1: the filtered query is refused, the scan of the whole
    table keeps the two records that link to the lead. *)
Lemma comments_fallback_scan_witness :
  let cfg := config exampleEnv in
  getCommentsBaseUrl cfg = Return commentsUrl
  /\ (exists w1,
         fetchAllRecords cfg commentsUrl [("filterByFormula", formulaFor cfg "recLEAD")]
           fallbackWorld
         = Some (Throw (Error "Invalid formula"), w1))
  /\ exists comments w2,
       @fetchAffiliateCommentsForLead exampleEngine cfg "recLEAD" fallbackWorld
       = Some (Return comments, w2)
       /\ List.map AffiliateComment.id comments = ["c2"; "c1"]
       /\ length (sent w2) = 2.
Proof.
  intros cfg.
  assert (Hbase : getCommentsBaseUrl cfg = Return commentsUrl) by reflexivity.
  pose (w1 := {| script := [Return (okResponse (Payload.mk exampleComments None None))];
                 sent := [listRequest cfg commentsUrl
                            [("filterByFormula", formulaFor cfg "recLEAD")]] |}).
  assert (Hprimary :
            fetchAllRecords cfg commentsUrl [("filterByFormula", formulaFor cfg "recLEAD")]
              fallbackWorld
            = Some (Throw (Error "Invalid formula"), w1)) by reflexivity.
  split; [exact Hbase|]. split; [now exists w1|].
  destruct (@comments_fallback_scan exampleEngine cfg "recLEAD" fallbackWorld w1 commentsUrl
              (Throw (Error "Invalid formula")) Hbase Hprimary
              (or_intror (ex_intro _ (Error "Invalid formula") eq_refl))) as [_ Hscan].
  pose (w2 := {| script := [];
                 sent := sent w1 ++ [listRequest cfg commentsUrl []] |}).
  assert (Hfallback : fetchAllRecords cfg commentsUrl [] w1
                      = Some (Return exampleComments, w2)) by reflexivity.
  destruct (Hscan exampleComments w2 Hfallback) as [Hrun _].
  eexists _, w2. split; [exact Hrun|].
  split; vm_compute; reflexivity.
Defined.

(** ** Sorting and trimming *)

Lemma sortInsert_Permutation {A} (cmp : A -> A -> number) (x : A) (l : list A) :
  Permutation (sortInsert cmp x l) (x :: l).
Proof.
  induction l as [|y l IH]; simpl; [reflexivity|].
  destruct (isPositive (cmp x y)); [|reflexivity].
  rewrite IH. apply perm_swap.
Qed.

Lemma sort_Permutation {A} (cmp : A -> A -> number) (l : list A) :
  Permutation (sort cmp l) l.
Proof.
  induction l as [|x l IH]; simpl; [reflexivity|].
  rewrite sortInsert_Permutation. now rewrite IH.
Qed.

Lemma byCreatedTime_positive (a b : AffiliateComment.t) (ta tb : Z) :
  timeValue (AffiliateComment.createdTime a) = Some ta ->
  timeValue (AffiliateComment.createdTime b) = Some tb ->
  isPositive (byCreatedTime a b) = true <-> (tb < ta)%Z.
Proof.
  intros Ha Hb. unfold byCreatedTime, getTime. rewrite Ha, Hb. simpl.
  destruct (Qlt_le_dec 0 (inject_Z ta - inject_Z tb)) as [Hlt|Hle].
  - split; [intros _|reflexivity].
    unfold Qlt in Hlt. simpl in Hlt. lia.
  - split; [discriminate|]. intros Hlt.
    unfold Qle in Hle. simpl in Hle. lia.
Qed.

Lemma notAfter_trans (a b c : AffiliateComment.t) :
  notAfter a b -> notAfter b c -> notAfter a c.
Proof.
  intros (ta & tb & Ha & Hb & Hab) (tb' & tc & Hb' & Hc & Hbc).
  exists ta, tc. repeat split; [exact Ha | exact Hc |].
  rewrite Hb in Hb'. injection Hb' as <-. lia.
Qed.

Lemma sortInsert_sorted (x : AffiliateComment.t) (l : list AffiliateComment.t) :
  dated x -> Forall dated l ->
  StronglySorted notAfter l ->
  StronglySorted notAfter (sortInsert byCreatedTime x l).
Proof.
  intros [tx Hx] Hdated Hsorted.
  induction Hsorted as [|y l Hsorted IH Hy]; simpl.
  - repeat constructor.
  - inversion Hdated as [|? ? [ty Hty] Hdated']; subst.
    destruct (isPositive (byCreatedTime x y)) eqn:Hcmp.
    + apply (byCreatedTime_positive x y tx ty Hx Hty) in Hcmp.
      constructor; [now apply IH|].
      apply Forall_forall. intros z Hz.
      rewrite sortInsert_Permutation in Hz. apply elem_of_cons in Hz as [->|Hz].
      * exists ty, tx. repeat split; [exact Hty | exact Hx | lia].
      * rewrite Forall_forall in Hy. now apply Hy.
    + assert (Hxy : notAfter x y).
      { exists tx, ty. repeat split; [exact Hx | exact Hty |].
        destruct (Z_lt_le_dec ty tx) as [Hlt|Hle]; [|exact Hle].
        apply (byCreatedTime_positive x y tx ty Hx Hty) in Hlt. congruence. }
      constructor; [now constructor|].
      constructor; [exact Hxy|].
      eapply Forall_impl; [exact Hy|]. intros z Hyz. simpl in Hyz.
      now apply (notAfter_trans x y z).
Qed.

Lemma sort_sorted (l : list AffiliateComment.t) :
  Forall dated l -> StronglySorted notAfter (sort byCreatedTime l).
Proof.
  induction l as [|x l IH]; simpl; intros Hdated; [constructor|].
  inversion Hdated as [|? ? Hx Hl]; subst.
  apply sortInsert_sorted; [exact Hx | | now apply IH].
  apply Forall_forall. intros z Hz. rewrite sort_Permutation in Hz.
  rewrite Forall_forall in Hl. now apply Hl.
Qed.

Lemma blank_cons (c : ascii) (s : string) :
  blank (String c s) <-> isWhiteSpace c = true /\ blank s.
Proof.
  unfold blank. simpl. split.
  - intros Hall. split; [apply Hall; now left | intros c' Hc'; apply Hall; now right].
  - intros [Hc Hs] c' [<-|Hc']; [exact Hc | now apply Hs].
Qed.

Lemma trimEnd_empty (s : string) : trimEnd s = EmptyString <-> blank s.
Proof.
  induction s as [|c s IH].
  - split; [intros _ c [] | reflexivity].
  - rewrite blank_cons, <- IH. cbn [trimEnd].
    destruct (trimEnd s) as [|c' t].
    + destruct (isWhiteSpace c); split; try tauto; try discriminate.
      intros [Hc _]. discriminate Hc.
    + split; [discriminate | intros [_ Ht]; discriminate Ht].
Qed.

Lemma trimStart_blank (s : string) : blank (trimStart s) <-> blank s.
Proof.
  induction s as [|c s IH]; [reflexivity|].
  cbn [trimStart]. destruct (isWhiteSpace c) eqn:Hc; [|reflexivity].
  rewrite IH, blank_cons. tauto.
Qed.

Lemma hasText_spec (c : AffiliateComment.t) :
  hasText c = true <-> ~ blank (AffiliateComment.text c).
Proof.
  unfold hasText, trim. rewrite <- trimStart_blank, <- trimEnd_empty.
  destruct (trimEnd (trimStart (AffiliateComment.text c))); simpl;
    split; try congruence; try discriminate; try reflexivity.
Qed.

(** ** Comments of a lead: order and content *)

Lemma scriptRecords_app (a b : list (completion Response)) :
  scriptRecords (a ++ b) = scriptRecords a ++ scriptRecords b.
Proof. unfold scriptRecords. now rewrite map_app, concat_app. Qed.

Lemma fetchAllRecords_loop_exhausted (turns : nat) (cfg : Config) (baseUrl : string)
    (params : URLSearchParams.t) (records : list AirtableRecord.t) (offset : option string)
    (w : World) :
  script w = [] ->
  fetchAllRecords_loop turns cfg baseUrl params records offset w = None.
Proof.
  intros Hscript. destruct turns; [reflexivity|].
  cbn [fetchAllRecords_loop]. unfold bind, fetch. now rewrite Hscript.
Qed.

Lemma fetchAllRecords_loop_records (cfg : Config) (baseUrl : string)
    (params : URLSearchParams.t) (turns : nat) :
  forall (records : list AirtableRecord.t) (offset : option string) (w w' : World)
         (o : completion (list AirtableRecord.t)),
  fetchAllRecords_loop turns cfg baseUrl params records offset w = Some (o, w') ->
  (exists consumed, script w = consumed ++ script w')
  /\ (forall result, o = Return result ->
        forall x, In x result -> In x records \/ In x (scriptRecords (script w))).
Proof.
  induction turns as [|turns IH]; intros records offset w w' o Hrun; [discriminate Hrun|].
  destruct (script w) as [|outcome rest] eqn:Hscript.
  { now rewrite fetchAllRecords_loop_exhausted in Hrun. }
  rewrite (fetchAllRecords_loop_turn _ _ _ _ _ _ _ _ _ Hscript) in Hrun. cbv zeta in Hrun.
  assert (Hstop : forall e : error,
             Some (@Throw (list AirtableRecord.t) e,
                   {| script := rest;
                      sent := sent w ++ [listRequest cfg baseUrl (paramsWith offset params)] |})
             = Some (o, w') ->
             (exists consumed, outcome :: rest = consumed ++ script w')
             /\ (forall result, o = Return result ->
                   forall x, In x result ->
                             In x records \/ In x (scriptRecords (outcome :: rest)))).
  { intros e [= <- <-]. split; [now exists [outcome]|]. intros result [=]. }
  destruct outcome as [response|e]; [|now apply (Hstop e)].
  destruct (ok response) eqn:Hok; [|now apply (Hstop (Error (failureMessage response)))].
  destruct (json response) as [payload|e] eqn:Hjson; [|now apply (Hstop e)].
  assert (Hhead : scriptRecords (Return response :: rest)
                  = Payload.records payload ++ scriptRecords rest).
  { unfold scriptRecords. simpl. now rewrite Hjson. }
  rewrite Hhead.
  destruct (truthyOpt (Payload.offset payload)).
  - apply IH in Hrun as [[consumed Hconsumed] Hin]. simpl in Hconsumed, Hin.
    split.
    + exists (Return response :: consumed). simpl. now rewrite Hconsumed.
    + intros result Hres x Hx. destruct (Hin result Hres x Hx) as [Hacc|Hrest].
      * apply in_app_or in Hacc as [Hacc|Hpage]; [now left|].
        right. apply in_or_app. now left.
      * right. apply in_or_app. now right.
  - injection Hrun as <- <-. split; [now exists [Return response]|].
    intros result [= <-] x Hx.
    apply in_app_or in Hx as [Hacc|Hpage]; [now left|].
    right. apply in_or_app. now left.
Qed.

Lemma fetchAllRecords_records (cfg : Config) (baseUrl : string)
    (params : URLSearchParams.t) (w w' : World) (o : completion (list AirtableRecord.t)) :
  fetchAllRecords cfg baseUrl params w = Some (o, w') ->
  (exists consumed, script w = consumed ++ script w')
  /\ (forall result, o = Return result ->
        forall x, In x result -> In x (scriptRecords (script w))).
Proof.
  intros Hrun. apply fetchAllRecords_loop_records in Hrun as [Hconsumed Hin].
  split; [exact Hconsumed|]. intros result Hres x Hx.
  destruct (Hin result Hres x Hx) as [[]|Hscript]. exact Hscript.
Qed.

Section Ordering.
Context `{Engine}.

Lemma fetchAffiliateCommentsForLead_records (cfg : Config) (leadId : string)
    (w w' : World) (comments : list AffiliateComment.t) :
  fetchAffiliateCommentsForLead cfg leadId w = Some (Return comments, w') ->
  exists records,
    (forall x, In x records -> In x (scriptRecords (script w)))
    /\ comments = commentsOfRecords cfg records.
Proof.
  intros Hrun.
  destruct (getCommentsBaseUrl cfg) as [baseUrl|e] eqn:Hbase.
  2:{ unfold fetchAffiliateCommentsForLead, bind in Hrun. rewrite Hbase in Hrun.
      discriminate Hrun. }
  rewrite (fetchAffiliateCommentsForLead_unfold cfg leadId w baseUrl Hbase) in Hrun.
  destruct (fetchAllRecords cfg baseUrl (primaryParams cfg leadId) w)
    as [[primary w1]|] eqn:Hprimary; [|discriminate Hrun].
  apply fetchAllRecords_records in Hprimary as [[consumed Hconsumed] Hin].
  destruct (primaryRecords primary) as [|record records] eqn:Hrecords.
  - destruct (fetchAllRecords cfg baseUrl [] w1) as [[[all|e] w2]|] eqn:Hscan;
      try discriminate Hrun.
    injection Hrun as <- <-.
    apply fetchAllRecords_records in Hscan as [_ Hall].
    eexists. split; [|reflexivity].
    intros x Hx. apply filter_In in Hx as [Hx _].
    rewrite Hconsumed, scriptRecords_app. apply in_or_app. right.
    now apply (Hall all eq_refl).
  - injection Hrun as <- <-. exists (record :: records). split; [|reflexivity].
    destruct primary as [result|e]; [|discriminate Hrecords].
    simpl in Hrecords. subst result. now apply (Hin _ eq_refl).
Qed.

(** C6, as the code has it.  None of the comments that
    [fetchAffiliateCommentsForLead] returns has an empty or
    white-space-only text: such comments are dropped, and the comments
    returned are, up to order, the comments with text among those of the
    records kept.  Whenever the creation time of every returned comment
    is a valid date, the comments are in ascending order of creation
    time. *)
Theorem comments_sorted_and_nonblank (cfg : Config) (leadId : string)
    (w w' : World) (comments : list AffiliateComment.t) :
  fetchAffiliateCommentsForLead cfg leadId w = Some (Return comments, w') ->
  Forall (fun comment => ~ blank (AffiliateComment.text comment)) comments
  /\ (Forall dated comments -> StronglySorted notAfter comments)
  /\ exists records,
       (forall x, In x records -> In x (scriptRecords (script w)))
       /\ Permutation comments
            (List.filter hasText (List.map (commentOfRecord cfg) records)).
Proof.
  intros Hrun.
  apply fetchAffiliateCommentsForLead_records in Hrun as (records & Hin & ->).
  unfold commentsOfRecords. split; [|split].
  - apply Forall_forall. intros c Hc. rewrite sort_Permutation in Hc.
    apply list_elem_of_In, filter_In in Hc as [_ Hc]. now apply hasText_spec.
  - intros Hdated. apply sort_sorted.
    apply Forall_forall. intros c Hc. rewrite Forall_forall in Hdated.
    apply Hdated. now rewrite sort_Permutation.
  - exists records. split; [exact Hin | apply sort_Permutation].
Qed.

End Ordering.

(** Witness of C6: the store answers with a thread out of order that
    holds a comment of spaces; the comment of spaces is dropped and the
    others come back in order. *)
Lemma comments_sorted_and_nonblank_witness :
  let cfg := config exampleEnv in
  exists comments w',
    @fetchAffiliateCommentsForLead exampleEngine cfg "recLEAD" blankWorld
    = Some (Return comments, w')
    /\ In "cB" (List.map AirtableRecord.id (scriptRecords (script blankWorld)))
    /\ List.map AffiliateComment.id comments = ["c2"; "c1"]
    /\ Forall (fun comment => ~ blank (AffiliateComment.text comment)) comments
    /\ Forall dated comments
    /\ StronglySorted notAfter comments.
Proof.
  intros cfg.
  destruct (@fetchAffiliateCommentsForLead exampleEngine cfg "recLEAD" blankWorld)
    as [[[comments|e] w']|] eqn:Hrun; try (vm_compute in Hrun; discriminate Hrun).
  destruct (@comments_sorted_and_nonblank exampleEngine cfg "recLEAD" blankWorld w'
              comments Hrun) as (Hnonblank & Hsorted & _).
  assert (Hdated : Forall dated comments).
  { vm_compute in Hrun. injection Hrun as <- _.
    repeat constructor; eexists; reflexivity. }
  exists comments, w'. split; [reflexivity|].
  split; [vm_compute; auto|].
  split; [vm_compute in Hrun; injection Hrun as <- _; reflexivity|].
  split; [exact Hnonblank|]. split; [exact Hdated | exact (Hsorted Hdated)].
Defined.

(** C6 as stated fails: a record whose creation time is not a date
    compares as equal to every other, so the thread [c3; cX; c1] comes
    back as it was fetched, with c3 ahead of c1 although c1 was created
    a day earlier. *)
Lemma comments_unsorted_with_invalid_date :
  let cfg := config exampleEnv in
  exists comments w' c3 cX c1,
    @fetchAffiliateCommentsForLead exampleEngine cfg "recLEAD" undatedWorld
    = Some (Return comments, w')
    /\ comments = [c3; cX; c1]
    /\ List.map AffiliateComment.id comments = ["c3"; "cX"; "c1"]
    /\ timeValue (AffiliateComment.createdTime c3) = Some 1704153600000%Z
    /\ timeValue (AffiliateComment.createdTime cX) = None
    /\ timeValue (AffiliateComment.createdTime c1) = Some 1704067200000%Z
    /\ ~ StronglySorted notAfter comments.
Proof.
  intros cfg.
  destruct (@fetchAffiliateCommentsForLead exampleEngine cfg "recLEAD" undatedWorld)
    as [[[comments|e] w']|] eqn:Hrun; try (vm_compute in Hrun; discriminate Hrun).
  vm_compute in Hrun. injection Hrun as <- <-.
  eexists _, _, _, _, _. split; [reflexivity|]. split; [reflexivity|].
  split; [reflexivity|]. split; [reflexivity|]. split; [reflexivity|].
  split; [reflexivity|].
  intros Hsorted. apply StronglySorted_inv in Hsorted as [_ Hfirst].
  apply Forall_inv in Hfirst. destruct Hfirst as (ta & tb & _ & Habs & _).
  discriminate Habs.
Qed.

(** * Further properties of the adapter *)

(** ** Text and date decoding *)

Lemma join_truthy (sep : string) (parts : list string) :
  parts <> [] -> Forall (fun p => truthy p = true) parts -> truthy (join sep parts) = true.
Proof.
  intros Hne Hall. destruct parts as [|p rest]; [congruence|].
  inversion Hall as [|? ? Hp _]; subst.
  destruct p as [|c p]; [discriminate Hp|].
  destruct rest; reflexivity.
Qed.

Lemma keepText_truthy (item : option string) :
  Forall (fun p => truthy p = true) (keepText item).
Proof.
  destruct item as [s|]; simpl; [|constructor].
  destruct (truthy s) eqn:Hs; repeat constructor. exact Hs.
Qed.

Lemma keepText_nil (item : option string) :
  keepText item = [] <-> truthyOpt item = false.
Proof.
  destruct item as [s|]; simpl; [|tauto].
  destruct (truthy s); split; congruence.
Qed.

Section TextAndDates.
Context `{Engine}.

Lemma parseText_Arr (items : list value) :
  parseText (Arr items)
  = match concat (List.map keepText (List.map parseText items)) with
    | [] => None
    | parts => Some (join ", " parts)
    end.
Proof.
  cbn [parseText].
  destruct (concat (List.map keepText (List.map parseText items))); reflexivity.
Qed.

(** X1.  A sequence of values decodes to a text exactly when one of its
    items decodes to a non-empty text, and the text it decodes to is
    never empty: items without text leave no trace, neither an empty
    part nor a separator. *)
Theorem parseText_array_never_empty (items : list value) :
  (parseText (Arr items) = None
   <-> Forall (fun item => truthyOpt (parseText item) = false) items)
  /\ (forall t, parseText (Arr items) = Some t -> truthy t = true)
  /\ (forall item, truthyOpt (parseText item) = false ->
        parseText (Arr (item :: items)) = parseText (Arr items)).
Proof.
  rewrite parseText_Arr.
  assert (Hparts : Forall (fun p => truthy p = true)
                     (concat (List.map keepText (List.map parseText items)))).
  { induction items as [|item items IH]; simpl; [constructor|].
    apply Forall_app. split; [apply keepText_truthy | exact IH]. }
  assert (Hnil : concat (List.map keepText (List.map parseText items)) = []
                 <-> Forall (fun item => truthyOpt (parseText item) = false) items).
  { clear Hparts. induction items as [|item items IH]; simpl.
    - split; [constructor | reflexivity].
    - rewrite Forall_cons, <- IH, <- keepText_nil. split.
      + intros Happ. now apply app_eq_nil in Happ.
      + intros [-> ->]. reflexivity. }
  split; [|split].
  - rewrite <- Hnil.
    destruct (concat (List.map keepText (List.map parseText items)));
      split; congruence.
  - intros t.
    destruct (concat (List.map keepText (List.map parseText items))) as [|p parts] eqn:Hc;
      [discriminate|].
    intros [= <-]. apply (join_truthy ", " (p :: parts)); [discriminate | exact Hparts].
  - intros item Hitem. rewrite !parseText_Arr. cbn [List.map concat].
    apply keepText_nil in Hitem. now rewrite Hitem.
Qed.

(** X2.  [parseDate] yields a date exactly for a non-empty string that
    the engine reads as a date, and the date it yields is valid; so the
    latest-update and comment-update times of a decoded lead, when
    present, are never invalid dates. *)
Theorem parseDate_valid (v : value) (d : Date) :
  (parseDate v = Some d
   <-> exists s t, v = Str s /\ truthy s = true /\ DateParse s = Some t
                   /\ d = mkDate (Some t))
  /\ (forall cfg record,
         Lead.latestUpdate (mapRecordToLead cfg record) = Some d
         \/ Lead.ccUpdateTime (mapRecordToLead cfg record) = Some d ->
         is_Some (timeValue d)).
Proof.
  assert (Hiff : forall v', parseDate v' = Some d
                 <-> exists s t, v' = Str s /\ truthy s = true /\ DateParse s = Some t
                                 /\ d = mkDate (Some t)).
  { intros v'. split.
    - intros Hparse. destruct v' as [| | | |s| |]; try discriminate Hparse.
      simpl in Hparse. destruct (truthy s) eqn:Hs; [|discriminate Hparse].
      unfold getTime, newDate in Hparse. simpl in Hparse.
      destruct (DateParse s) as [t|] eqn:Ht; [|discriminate Hparse].
      injection Hparse as <-. now exists s, t.
    - intros (s & t & -> & Hs & Ht & ->). simpl. rewrite Hs.
      unfold getTime, newDate. simpl. now rewrite Ht. }
  split; [apply Hiff|].
  intros cfg record [Hd|Hd]; simpl in Hd; apply Hiff in Hd as (s & t & _ & _ & _ & ->);
    now exists t.
Qed.

End TextAndDates.

(** ** Decoded leads *)

Section DecodedLeads.
Context `{Engine}.

(** X3.  A decoded lead keeps the identifier of its record and never has
    an empty name: the name is the text of the name column when that text
    exists and is not empty, and the placeholder Unnamed Lead otherwise.
    An optional column that is not configured (unset or empty) leaves its
    field absent whatever the record holds. *)
Theorem mapRecordToLead_name_and_unmapped (cfg : Config) (record : AirtableRecord.t) :
  let lead := mapRecordToLead cfg record in
  let named := parseText (get (AirtableRecord.fields record) (fieldName cfg)) in
  Lead.id lead = AirtableRecord.id record
  /\ truthy (Lead.name lead) = true
  /\ (forall t, named = Some t -> truthy t = true -> Lead.name lead = t)
  /\ (truthyOpt named = false -> Lead.name lead = "Unnamed Lead")
  /\ (truthyOpt (fieldLeadEmail cfg) = false -> Lead.leadEmail lead = None)
  /\ (truthyOpt (fieldLeadPhone cfg) = false -> Lead.leadPhone lead = None)
  /\ (truthyOpt (fieldNotes cfg) = false -> Lead.notes lead = None)
  /\ (truthyOpt (fieldAffiliateComments cfg) = false -> Lead.affiliateComments lead = None).
Proof.
  assert (Hunmapped : forall fields column,
             truthyOpt column = false -> parseOptionalField fields column = None).
  { intros fields [c|] Hc; [|reflexivity]. simpl in Hc |- *. now rewrite Hc. }
  intros lead named. subst lead. unfold mapRecordToLead. cbn [Lead.id Lead.name
    Lead.leadEmail Lead.leadPhone Lead.notes Lead.affiliateComments]. fold named.
  split; [reflexivity|]. split; [now apply truthy_orElse|].
  split; [intros t -> Ht; simpl; now rewrite Ht|].
  split; [|repeat split; apply Hunmapped].
  destruct named as [t|]; simpl; [|reflexivity]. now intros ->.
Qed.

End DecodedLeads.

(** ** The field map of a new lead *)

(** X4.  An optional input that is entered goes out under its configured
    column with its value, provided the column is not named __proto__ (an
    assignment to that key writes nothing) and no other optional field
    with a different value is configured for the same column. *)
Theorem createLead_fields_optional_sent (cfg : Config) (input : NewLeadInput.t)
    (column entered : option string) (k s : string) :
  In (column, entered) (optionalFields cfg input) ->
  column = Some k -> entered = Some s ->
  truthy k = true -> truthy s = true ->
  k <> "__proto__" ->
  (forall column' entered',
      In (column', entered') (optionalFields cfg input) ->
      column' = Some k -> entered' = entered) ->
  createLead_fields cfg input !! k = Some (Str s).
Proof.
  intros Hin -> -> Hk Hs Hproto Hsame. unfold createLead_fields.
  assert (Hset : forall fields column' entered',
             In (column', entered') (optionalFields cfg input) ->
             setIfConfigured fields column' entered' !! k = Some (Str s)
             \/ (setIfConfigured fields column' entered' !! k = fields !! k
                 /\ (column', entered') <> (Some k, Some s))).
  { intros fields column' entered' Hin'.
    destruct (decide (column' = Some k)) as [->|Hne].
    - left. rewrite (Hsame _ _ Hin' eq_refl). simpl. rewrite Hk, Hs. simpl.
      unfold assignString. rewrite decide_False by exact Hproto.
      apply lookup_insert_eq.
    - right. split; [now apply setIfConfigured_other | congruence]. }
  unfold optionalFields in Hin, Hset.
  edestruct Hset as [Hdone|[-> Hne4]]; [| exact Hdone |]; [simpl; eauto 6|].
  edestruct Hset as [Hdone|[-> Hne3]]; [| exact Hdone |]; [simpl; eauto 6|].
  edestruct Hset as [Hdone|[-> Hne2]]; [| exact Hdone |]; [simpl; eauto 6|].
  edestruct Hset as [Hdone|[-> Hne1]]; [| exact Hdone |]; [simpl; eauto 6|].
  simpl in Hin. intuition congruence.
Qed.

(** The notes of the example input go out under the Notes column. *)
Lemma createLead_fields_optional_sent_witness :
  createLead_fields (config exampleEnv) (exampleInput "Ada") !! "Notes"
  = Some (Str "call back").
Proof.
  apply (createLead_fields_optional_sent (config exampleEnv) (exampleInput "Ada")
           (Some "Notes") (Some "call back") "Notes" "call back");
    try reflexivity.
  - vm_compute. auto.
  - discriminate.
  - intros column' entered' Hin Hcolumn. vm_compute in Hin.
    destruct Hin as [Hin|[Hin|[Hin|[Hin|[]]]]]; injection Hin as <- <-;
      solve [reflexivity | discriminate Hcolumn].
Defined.

(** ** Listing leads *)

Section ListLeads.
Context `{Engine}.

(** X5.  With the required settings present, [fetchLeads] sends exactly
    one GET request, sorted by the latest-update column in descending
    order, and consumes exactly one response.  It decodes the records of
    that response in the order received and never follows a continuation
    token, so the records of later pages are not listed.  A non-success
    response and a rejected [fetch] end the call with their error. *)
Theorem fetchLeads_single_page (cfg : Config) (w : World) (baseUrl : string)
    (outcome : completion Response) (rest : list (completion Response)) :
  getBaseUrl cfg = Return baseUrl ->
  script w = outcome :: rest ->
  let w' := {| script := rest; sent := sent w ++ [leadsRequest cfg baseUrl] |} in
  (forall r p, outcome = Return r -> carries r p ->
     fetchLeads cfg w
     = Some (Return (List.map (mapRecordToLead cfg) (Payload.records p)), w'))
  /\ (forall r, outcome = Return r -> ok r = false ->
        fetchLeads cfg w = Some (Throw (Error (failureMessage r)), w'))
  /\ (forall r e, outcome = Return r -> ok r = true -> json r = Throw e ->
        fetchLeads cfg w = Some (Throw e, w'))
  /\ (forall e, outcome = Throw e -> fetchLeads cfg w = Some (Throw e, w')).
Proof.
  intros Hbase Hscript w'.
  assert (Hrun : fetchLeads cfg w
                 = match outcome with
                   | Throw e => Some (Throw e, w')
                   | Return r =>
                       if ok r then
                         match json r with
                         | Throw e => Some (Throw e, w')
                         | Return p =>
                             Some (Return (List.map (mapRecordToLead cfg)
                                             (Payload.records p)), w')
                         end
                       else Some (Throw (Error (failureMessage r)), w')
                   end).
  { unfold fetchLeads, bind, lift, fetch, throwIfNotOk. rewrite Hbase.
    unfold ret at 1. rewrite Hscript.
    destruct outcome as [r|e]; [|reflexivity].
    destruct (ok r); [|reflexivity]. unfold ret at 1.
    destruct (json r); reflexivity. }
  rewrite Hrun. repeat split.
  - intros r p -> [Hok Hjson]. now rewrite Hok, Hjson.
  - intros r -> Hok. now rewrite Hok.
  - intros r e -> Hok Hjson. now rewrite Hok, Hjson.
  - now intros e ->.
Qed.

End ListLeads.

(** The first page carries a continuation token and a second page is
    scripted: only the two leads of the first page are listed, and the
    second response is left unread. *)
Lemma fetchLeads_single_page_witness :
  let cfg := config exampleEnv in
  let first := okResponse (Payload.mk exampleLeadRecords (Some "page2") None) in
  let second := Return (okResponse (examplePage 0 None)) in
  let w := {| script := [Return first; second]; sent := [] |} in
  getBaseUrl cfg = Return leadsUrl
  /\ script w = Return first :: [second]
  /\ exists listed,
       @fetchLeads exampleEngine cfg w
       = Some (Return listed, {| script := [second]; sent := [leadsRequest cfg leadsUrl] |})
       /\ List.map Lead.name listed = ["Ada"; "Grace"]
       /\ List.map Lead.status listed = [contacted; new].
Proof.
  intros cfg first second w. split; [reflexivity|]. split; [reflexivity|].
  eexists. split.
  - apply (@fetchLeads_single_page exampleEngine cfg w leadsUrl (Return first) [second]
             eq_refl eq_refl)
      with (r := first) (p := Payload.mk exampleLeadRecords (Some "page2") None);
      [reflexivity | split; reflexivity].
  - split; vm_compute; reflexivity.
Defined.

(** ** Sending a message *)

Lemma sendAffiliateMessage_unfold (cfg : Config) (lead : Lead.t) (text : string)
    (w : World) (baseUrl : string) (outcome : completion Response)
    (rest : list (completion Response)) :
  getCommentsBaseUrl cfg = Return baseUrl ->
  script w = outcome :: rest ->
  sendAffiliateMessage cfg lead text w
  = let w' := {| script := rest;
                 sent := sent w ++ [messageRequest cfg baseUrl lead text] |} in
    match outcome with
    | Throw e => Some (Throw e, w')
    | Return r =>
        if ok r then Some (Return tt, w')
        else Some (Throw (Error (failureMessage r)), w')
    end.
Proof.
  intros Hbase Hscript. unfold sendAffiliateMessage, bind, lift, fetch, throwIfNotOk.
  rewrite Hbase. unfold ret at 1. rewrite Hscript.
  destruct outcome as [r|e]; [|reflexivity].
  destruct (ok r); reflexivity.
Qed.

(** X6.  With the comment settings present, [sendAffiliateMessage] sends
    exactly one POST request to the comments table and succeeds on any
    success response without reading its body; a non-success response
    and a rejected [fetch] end the call with their error.  When the three
    comment columns have different names, the field map it sends holds
    the text under the text column, the one-element list of the lead's
    identifier under the link column and, when an author column is set
    and is not named __proto__ (an assignment to that key writes
    nothing), the label You under it, and nothing else. *)
Theorem sendAffiliateMessage_request (cfg : Config) (lead : Lead.t) (text : string)
    (w : World) (baseUrl : string) (outcome : completion Response)
    (rest : list (completion Response)) :
  getCommentsBaseUrl cfg = Return baseUrl ->
  script w = outcome :: rest ->
  let w' := {| script := rest; sent := sent w ++ [messageRequest cfg baseUrl lead text] |} in
  let fields := messageFields cfg lead text in
  (forall r, outcome = Return r -> ok r = true ->
     sendAffiliateMessage cfg lead text w = Some (Return tt, w'))
  /\ (forall r, outcome = Return r -> ok r = false ->
        sendAffiliateMessage cfg lead text w
        = Some (Throw (Error (failureMessage r)), w'))
  /\ (forall e, outcome = Throw e ->
        sendAffiliateMessage cfg lead text w = Some (Throw e, w'))
  /\ (commentColumnsApart cfg ->
      fields !! affiliateCommentsTextField cfg = Some (Str text)
      /\ fields !! affiliateCommentsLeadLinkField cfg = Some (Arr [Str (Lead.id lead)])
      /\ (truthy (affiliateCommentsAuthorField cfg) = true ->
          affiliateCommentsAuthorField cfg <> "__proto__" ->
          fields !! affiliateCommentsAuthorField cfg = Some (Str "You"))
      /\ (affiliateCommentsAuthorField cfg = "__proto__" ->
          fields !! affiliateCommentsAuthorField cfg = None)
      /\ (forall k, k <> affiliateCommentsTextField cfg ->
                    k <> affiliateCommentsLeadLinkField cfg ->
                    k <> affiliateCommentsAuthorField cfg ->
                    fields !! k = None)).
Proof.
  intros Hbase Hscript w' fields.
  pose proof (sendAffiliateMessage_unfold cfg lead text w baseUrl outcome rest
                Hbase Hscript) as Hrun.
  cbv zeta in Hrun. fold w' in Hrun. rewrite Hrun.
  split; [intros r -> Hok; now rewrite Hok|].
  split; [intros r -> Hok; now rewrite Hok|].
  split; [now intros e ->|].
  intros (Htl & Hta & Hla). subst fields. unfold messageFields, assignString.
  destruct (truthy (affiliateCommentsAuthorField cfg)) eqn:Hauthor;
    [case_decide as Hproto|].
  - split; [|split; [|split; [|split]]].
    + rewrite lookup_insert_ne by congruence. apply lookup_insert_eq.
    + apply lookup_insert_eq.
    + intros _ Hne. now destruct Hne.
    + intros _. rewrite !lookup_insert_ne by congruence. apply lookup_empty.
    + intros k H1 H2 H3. rewrite !lookup_insert_ne by congruence. apply lookup_empty.
  - split; [|split; [|split; [|split]]].
    + rewrite lookup_insert_ne by congruence. rewrite lookup_insert_ne by congruence.
      apply lookup_insert_eq.
    + rewrite lookup_insert_ne by congruence. apply lookup_insert_eq.
    + intros _ _. apply lookup_insert_eq.
    + intros Habs. now destruct Hproto.
    + intros k H1 H2 H3. rewrite !lookup_insert_ne by congruence. apply lookup_empty.
  - split; [|split; [|split; [|split]]].
    + rewrite lookup_insert_ne by congruence. apply lookup_insert_eq.
    + apply lookup_insert_eq.
    + discriminate.
    + intros Habs. rewrite Habs in Hauthor. discriminate Hauthor.
    + intros k H1 H2 H3. rewrite !lookup_insert_ne by congruence. apply lookup_empty.
Qed.

Lemma config_commentColumnsApart : commentColumnsApart (config exampleEnv).
Proof. repeat split; vm_compute; discriminate. Defined.

(** A message for the example lead, accepted by the store. *)
Lemma sendAffiliateMessage_request_witness :
  let cfg := config exampleEnv in
  let accepted := okResponse (Payload.mk [] None None) in
  let w := {| script := [Return accepted]; sent := [] |} in
  getCommentsBaseUrl cfg = Return commentsUrl
  /\ script w = Return accepted :: []
  /\ sendAffiliateMessage cfg exampleLead "hello" w
     = Some (Return tt,
             {| script := [];
                sent := [messageRequest cfg commentsUrl exampleLead "hello"] |})
  /\ messageFields cfg exampleLead "hello" !! "Created By" = Some (Str "You").
Proof.
  intros cfg accepted w. split; [reflexivity|]. split; [reflexivity|].
  destruct (sendAffiliateMessage_request cfg exampleLead "hello" w commentsUrl
              (Return accepted) [] eq_refl eq_refl) as (Hok & _ & _ & Hfields).
  split; [apply (Hok accepted); reflexivity|].
  destruct (Hfields config_commentColumnsApart) as (_ & _ & Hyou & _).
  apply Hyou; [reflexivity | discriminate].
Defined.

(** ** Whose message a comment is *)

Lemma trim_empty (s : string) : truthy (trim s) = false <-> blank s.
Proof.
  rewrite <- trimStart_blank, <- trimEnd_empty. unfold trim.
  destruct (trimEnd (trimStart s)); simpl; split; congruence.
Qed.

Lemma lowerUnit_y_not_space (c : ascii) :
  lowerUnit c = "y"%char -> isWhiteSpace c = false.
Proof. destruct c as [[] [] [] [] [] [] [] []]; vm_compute; congruence. Qed.

Section UserMessages.
Context `{Engine}.

Lemma isUserMessage_Str (s : string) :
  LeadsTable.isUserMessage (Str s) = true <-> toLowerCase s = "you".
Proof.
  unfold LeadsTable.isUserMessage, LeadsTable.safeText.
  rewrite bool_decide_eq_true.
  destruct (truthy (trim s)) eqn:Htrim; [reflexivity|].
  apply trim_empty in Htrim. split; [discriminate|].
  intros Hyou. exfalso. destruct s as [|c s]; [discriminate Hyou|].
  injection Hyou as Hc _. apply lowerUnit_y_not_space in Hc.
  apply blank_cons in Htrim as [Hspace _]. congruence.
Qed.

(** X7.  A comment counts as the operator's own exactly when its author
    is a string that reads you in any mix of upper and lower case; white
    space around the word defeats the match, and an absent author or one
    that is neither a string nor a number never counts. *)
Theorem isUserMessage_characterised :
  (forall s, LeadsTable.isUserMessage (Str s) = true <-> toLowerCase s = "you")
  /\ (forall author : option string,
         LeadsTable.isUserMessage (LeadsTable.ofOptional author) = true
         <-> exists s, author = Some s /\ toLowerCase s = "you")
  /\ (forall v, (forall s, v <> Str s) -> (forall n, v <> Num n) ->
                LeadsTable.isUserMessage v = false)
  /\ LeadsTable.isUserMessage (Str "You") = true
  /\ LeadsTable.isUserMessage (Str "YOU") = true
  /\ LeadsTable.isUserMessage (Str " You") = false.
Proof.
  split; [exact isUserMessage_Str|]. split; [|split].
  - intros [s|]; simpl.
    + rewrite isUserMessage_Str. split; [eauto|]. now intros (s' & [= <-] & Hs).
    + split; [discriminate|]. now intros (s & Habs & _).
  - intros v Hstr Hnum. destruct v as [| | |n|s| |]; try reflexivity.
    + now destruct (Hnum n).
    + now destruct (Hstr s).
  - repeat split; reflexivity.
Qed.

(** X8.  A message as [sendAffiliateMessage] writes it reads back as
    sent.  When the three comment columns have different names and the
    author column is set and is not named __proto__ (an assignment to
    that key writes nothing), a record that carries the sent field map links
    to the lead in the fallback scan, and decodes to a comment with the
    sent text and the author You, which counts as the operator's own
    message; when the text is not blank the comment is listed. *)
Theorem sent_message_reads_back (cfg : Config) (lead : Lead.t) (text : string)
    (id createdTime : string) :
  commentColumnsApart cfg ->
  truthy (affiliateCommentsAuthorField cfg) = true ->
  affiliateCommentsAuthorField cfg <> "__proto__" ->
  let record := AirtableRecord.mk id createdTime (messageFields cfg lead text) in
  let comment := commentOfRecord cfg record in
  recordLinksToLead record (Lead.id lead) = true
  /\ AffiliateComment.text comment = text
  /\ AffiliateComment.author comment = Some "You"
  /\ LeadsTable.isUserMessage (LeadsTable.ofOptional (AffiliateComment.author comment))
     = true
  /\ (~ blank text -> commentsOfRecords cfg [record] = [comment]).
Proof.
  intros (Htl & Hta & Hla) Hauthor Hproto record comment.
  assert (Hfields : AirtableRecord.fields record
                    = <[affiliateCommentsAuthorField cfg := Str "You"]>
                        (<[affiliateCommentsLeadLinkField cfg := Arr [Str (Lead.id lead)]]>
                           (<[affiliateCommentsTextField cfg := Str text]> ∅))).
  { subst record. cbn [AirtableRecord.fields]. unfold messageFields, assignString.
    rewrite Hauthor. now rewrite decide_False by exact Hproto. }
  assert (Htext : AirtableRecord.fields record !! affiliateCommentsTextField cfg
                  = Some (Str text)).
  { rewrite Hfields. rewrite lookup_insert_ne by congruence.
    rewrite lookup_insert_ne by congruence. apply lookup_insert_eq. }
  assert (Hlink : AirtableRecord.fields record !! affiliateCommentsLeadLinkField cfg
                  = Some (Arr [Str (Lead.id lead)])).
  { rewrite Hfields. rewrite lookup_insert_ne by congruence. apply lookup_insert_eq. }
  assert (Hyou : AirtableRecord.fields record !! affiliateCommentsAuthorField cfg
                 = Some (Str "You")).
  { rewrite Hfields. apply lookup_insert_eq. }
  assert (Hcomment_text : AffiliateComment.text comment = text).
  { subst comment. rewrite commentOfRecord_text.
    unfold textCandidates. cbn [getFirstTextField]. unfold get at 1.
    now rewrite Htext. }
  assert (Hcomment_author : AffiliateComment.author comment = Some "You").
  { subst comment. unfold commentOfRecord. cbn [AffiliateComment.author].
    rewrite Hauthor. unfold get. now rewrite Hyou. }
  split; [|split; [exact Hcomment_text|split; [exact Hcomment_author|split]]].
  - apply recordLinksToLead_spec.
    exists (affiliateCommentsLeadLinkField cfg), (Arr [Str (Lead.id lead)]).
    split; [exact Hlink|]. simpl. rewrite orb_false_r. now apply bool_decide_eq_true.
  - rewrite Hcomment_author. reflexivity.
  - intros Hblank. unfold commentsOfRecords. cbn [List.map List.filter]. fold comment.
    replace (hasText comment) with true; [reflexivity|].
    symmetry. apply hasText_spec. now rewrite Hcomment_text.
Qed.

End UserMessages.

(** The message hello for the example lead. *)
Lemma sent_message_reads_back_witness :
  let cfg := config exampleEnv in
  let record := AirtableRecord.mk "c9" "2024-01-03T00:00:00.000Z"
                  (messageFields cfg exampleLead "hello") in
  commentColumnsApart cfg
  /\ truthy (affiliateCommentsAuthorField cfg) = true
  /\ affiliateCommentsAuthorField cfg <> "__proto__"
  /\ recordLinksToLead record "recLEAD" = true
  /\ AffiliateComment.text (@commentOfRecord exampleEngine cfg record) = "hello".
Proof.
  intros cfg record.
  assert (Hproto : affiliateCommentsAuthorField cfg <> "__proto__") by discriminate.
  split; [exact config_commentColumnsApart|]. split; [reflexivity|].
  split; [exact Hproto|].
  destruct (@sent_message_reads_back exampleEngine cfg exampleLead "hello"
              "c9" "2024-01-03T00:00:00.000Z" config_commentColumnsApart eq_refl Hproto)
    as (Hlinks & Htext & _).
  split; [exact Hlinks | exact Htext].
Defined.

(** ** Comments of a lead: the primary strategy *)

Section Primary.
Context `{Engine}.

(** X9.  When the filtered query returns at least one record, the
    comments are those of exactly its records: no second fetch is made
    (the world is the one the query left) and the records are not
    filtered locally, so a record that the store returned is kept even
    if no field of it links to the lead. *)
Theorem comments_primary_strategy (cfg : Config) (leadId : string) (w w1 : World)
    (baseUrl : string) (record : AirtableRecord.t) (records : list AirtableRecord.t) :
  getCommentsBaseUrl cfg = Return baseUrl ->
  fetchAllRecords cfg baseUrl [("filterByFormula", formulaFor cfg leadId)] w
  = Some (Return (record :: records), w1) ->
  fetchAffiliateCommentsForLead cfg leadId w
  = Some (Return (commentsOfRecords cfg (record :: records)), w1)
  /\ forall kept, In kept (record :: records) ->
                  hasText (commentOfRecord cfg kept) = true ->
                  In (commentOfRecord cfg kept) (commentsOfRecords cfg (record :: records)).
Proof.
  intros Hbase Hprimary. split.
  - rewrite (fetchAffiliateCommentsForLead_unfold cfg leadId w baseUrl Hbase).
    unfold primaryParams. now rewrite Hprimary.
  - intros kept Hin Htext. unfold commentsOfRecords.
    apply list_elem_of_In. rewrite sort_Permutation. apply list_elem_of_In.
    apply filter_In. split; [now apply in_map | exact Htext].
Qed.

End Primary.

(** The store answers the filtered query with a record of another lead:
    the record is listed, and the second scripted response stays unread. *)
Lemma comments_primary_strategy_witness :
  let cfg := config exampleEnv in
  let stray := AirtableRecord.mk "c3" "2024-01-02T00:00:00.000Z"
                 {["Comment" := Str "other"; "Lead" := Arr [Str "recOTHER"]]} in
  let unread := Return (okResponse (Payload.mk exampleComments None None)) in
  let w := {| script := [Return (okResponse (Payload.mk [stray] None None)); unread];
              sent := [] |} in
  getCommentsBaseUrl cfg = Return commentsUrl
  /\ recordLinksToLead stray "recLEAD" = false
  /\ exists w1,
       fetchAllRecords cfg commentsUrl [("filterByFormula", formulaFor cfg "recLEAD")] w
       = Some (Return [stray], w1)
       /\ script w1 = [unread]
       /\ @fetchAffiliateCommentsForLead exampleEngine cfg "recLEAD" w
          = Some (Return (@commentsOfRecords exampleEngine cfg [stray]), w1).
Proof.
  intros cfg stray unread w. split; [reflexivity|]. split; [vm_compute; reflexivity|].
  exists {| script := [unread];
            sent := [listRequest cfg commentsUrl
                       [("filterByFormula", formulaFor cfg "recLEAD")]] |}.
  split; [reflexivity|]. split; [reflexivity|].
  apply (@comments_primary_strategy exampleEngine cfg "recLEAD" w _ commentsUrl stray []
           eq_refl eq_refl).
Defined.

(** * Properties of the presentation layer *)

(** ** Labels and cells *)

(** X10.  The label that the table shows for a status decodes back to
    that status, for each of the six statuses; in particular the literal
    New that [createLead] sends is the label of [new]. *)
Theorem statusLabels_decode (st : LeadStatus) :
  normalizeStatus (Str (LeadsTable.statusLabels st)) = st.
Proof. destruct st; reflexivity. Qed.

Section Cells.
Context `{Engine}.

(** X11.  For a string, [safeText] shows the string itself, untrimmed,
    when it is not blank and the fallback when it is; so the name cell
    of a decoded lead, whose fallback is Unnamed Lead, is never blank,
    also when the name column holds only white space. *)
Theorem safeText_never_blank (s fallback : string) :
  (~ blank s -> LeadsTable.safeText (Str s) fallback = s)
  /\ (blank s -> LeadsTable.safeText (Str s) fallback = fallback)
  /\ (~ blank fallback -> ~ blank (LeadsTable.safeText (Str s) fallback))
  /\ (forall cfg record,
         ~ blank (LeadsTable.safeText (Str (Lead.name (mapRecordToLead cfg record)))
                    "Unnamed Lead")).
Proof.
  assert (Hcases : forall s' fb, (~ blank s' -> LeadsTable.safeText (Str s') fb = s')
                                 /\ (blank s' -> LeadsTable.safeText (Str s') fb = fb)).
  { intros s' fb. unfold LeadsTable.safeText.
    destruct (truthy (trim s')) eqn:Htrim.
    - split; [reflexivity|]. intros Hblank. apply trim_empty in Hblank. congruence.
    - apply trim_empty in Htrim. split; [now intros []|reflexivity]. }
  assert (Hnever : forall s' fb, ~ blank fb -> ~ blank (LeadsTable.safeText (Str s') fb)).
  { intros s' fb Hfb. unfold LeadsTable.safeText.
    destruct (truthy (trim s')) eqn:Htrim; [|exact Hfb].
    intros Hblank. apply trim_empty in Hblank. congruence. }
  split; [apply Hcases|]. split; [apply Hcases|]. split; [apply Hnever|].
  intros cfg record. apply Hnever. intros Hblank.
  specialize (Hblank "U"%char (or_introl eq_refl)). discriminate Hblank.
Qed.

End Cells.

(** A name of two spaces is shown as Unnamed Lead. *)
Lemma safeText_never_blank_witness :
  blank "  " /\ @LeadsTable.safeText exampleEngine (Str "  ") "Unnamed Lead" = "Unnamed Lead".
Proof.
  assert (Hblank : blank "  ").
  { intros c [<-|[<-|[]]]; reflexivity. }
  split; [exact Hblank|].
  now apply (@safeText_never_blank exampleEngine "  " "Unnamed Lead").
Defined.

(** ** The handlers of App *)

Section AppHandlers.
Context `{Engine}.

Lemma loadLeads_run (cfg : Config) (st : App.State) (w w' : World)
    (o : completion (list Lead.t)) :
  fetchLeads cfg w = Some (o, w') ->
  App.loadLeads cfg st w
  = Some (Return tt,
          match o with
          | Return result => App.mk result false false None
          | Throw e => App.mk (App.leads st) false false (Some (message e))
          end, w').
Proof.
  intros Hfetch.
  unfold App.loadLeads, H.bind, H.modify, H.tryFinally, H.tryCatch, H.await.
  rewrite Hfetch. destruct o; reflexivity.
Qed.

Lemma handleSubmitLead_run (cfg : Config) (leadInput : NewLeadInput.t)
    (st : App.State) (w w' : World) (o : completion Lead.t) :
  createLead cfg leadInput w = Some (o, w') ->
  App.handleSubmitLead cfg leadInput st w
  = match o with
    | Return created =>
        Some (Return tt,
              App.mk (created :: App.leads st) (App.isRefreshing st)
                (App.isInitialLoading st) None, w')
    | Throw e =>
        Some (Throw e,
              App.mk (App.leads st) (App.isRefreshing st)
                (App.isInitialLoading st) (Some (message e)), w')
    end.
Proof.
  intros Hcreate.
  unfold App.handleSubmitLead, H.bind, H.modify, H.tryCatch, H.await, H.throw.
  rewrite Hcreate. destruct o; reflexivity.
Qed.

Lemma handleLoadComments_run (cfg : Config) (leadId : string)
    (st : App.State) (w w' : World) (o : completion (list AffiliateComment.t)) :
  fetchAffiliateCommentsForLead cfg leadId w = Some (o, w') ->
  App.handleLoadComments cfg leadId st w
  = match o with
    | Return loaded => Some (Return loaded, st, w')
    | Throw e =>
        Some (Return [],
              App.mk (App.leads st) (App.isRefreshing st)
                (App.isInitialLoading st) (Some (message e)), w')
    end.
Proof.
  intros Hfetch.
  unfold App.handleLoadComments, H.bind, H.modify, H.tryCatch, H.await, H.ret.
  rewrite Hfetch. destruct o; reflexivity.
Qed.

Lemma handleSendMessage_run (cfg : Config) (lead : Lead.t) (text : string)
    (st : App.State) (w w' : World) (o : completion unit) :
  sendAffiliateMessage cfg lead text w = Some (o, w') ->
  App.handleSendMessage cfg lead text st w
  = match o with
    | Return _ =>
        Some (Return tt,
              App.mk (App.leads st) (App.isRefreshing st)
                (App.isInitialLoading st) None, w')
    | Throw e =>
        Some (Throw e,
              App.mk (App.leads st) (App.isRefreshing st)
                (App.isInitialLoading st) (Some (message e)), w')
    end.
Proof.
  intros Hsend.
  unfold App.handleSendMessage, H.bind, H.modify, H.tryCatch, H.await, H.throw.
  rewrite Hsend. destruct o as [[]|e]; reflexivity.
Qed.

End AppHandlers.

Lemma trim_truthy (s : string) : truthy (trim s) = true <-> ~ blank s.
Proof.
  rewrite <- trim_empty. destruct (truthy (trim s)); split; congruence.
Qed.

(** ** The lead form *)

(** X15.  When the name or the affiliate email is blank, [handleSubmit]
    does nothing at all: whatever [onSubmit] is, it is not called, no
    request is sent, and the form keeps what was typed. *)
Theorem handleSubmit_blank_required {P : Type}
    (onSubmit : NewLeadInput.t -> Handler P unit)
    (form : LeadForm.State) (p : P) (w : World) :
  blank (NewLeadInput.name (LeadForm.formData form))
  \/ blank (NewLeadInput.affiliateEmail (LeadForm.formData form)) ->
  LeadForm.handleSubmit onSubmit (form, p) w = Some (Return tt, (form, p), w).
Proof.
  intros Hblank. unfold LeadForm.handleSubmit, H.bind, H.get. cbn [fst].
  destruct Hblank as [Hblank|Hblank]; apply trim_empty in Hblank; rewrite Hblank;
    rewrite ?orb_true_r; reflexivity.
Qed.

(** A form with a name of spaces, over any page state and any script. *)
Lemma handleSubmit_blank_required_witness :
  let form := LeadForm.mk (exampleInput "   ") false in
  let w := {| script := [Return (okResponse (examplePage 0 None))]; sent := [] |} in
  blank "   "
  /\ LeadForm.handleSubmit (@App.handleSubmitLead exampleEngine (config exampleEnv))
       (form, App.initial) w
     = Some (Return tt, (form, App.initial), w).
Proof.
  intros form w.
  assert (Hblank : blank "   ").
  { intros c [<-|[<-|[<-|[]]]]; reflexivity. }
  split; [exact Hblank|].
  apply (handleSubmit_blank_required
           (@App.handleSubmitLead exampleEngine (config exampleEnv)) form App.initial w).
  left. exact Hblank.
Defined.

Section FormAndApp.
Context `{Engine}.

(** X16.  With a name and an affiliate email that are not blank, the form
    hands [createLead] the typed fields trimmed, the name among them not
    empty.  When the lead is created the form is reset to its initial
    state and the lead heads the list; when creation fails the form keeps
    what was typed, the error is shown by the page, and nothing is thrown
    out of the handler.  In both cases the form ends not submitting. *)
Theorem handleSubmit_outcomes (cfg : Config) (form : LeadForm.State) (app : App.State)
    (w w' : World) (o : completion Lead.t) :
  ~ blank (NewLeadInput.name (LeadForm.formData form)) ->
  ~ blank (NewLeadInput.affiliateEmail (LeadForm.formData form)) ->
  createLead cfg (LeadForm.trimmed (LeadForm.formData form)) w = Some (o, w') ->
  truthy (NewLeadInput.name (LeadForm.trimmed (LeadForm.formData form))) = true
  /\ LeadForm.handleSubmit (App.handleSubmitLead cfg) (form, app) w
     = Some (Return tt,
             match o with
             | Return created =>
                 (LeadForm.mk LeadForm.initialState false,
                  App.mk (created :: App.leads app) (App.isRefreshing app)
                    (App.isInitialLoading app) None)
             | Throw e =>
                 (LeadForm.mk (LeadForm.formData form) false,
                  App.mk (App.leads app) (App.isRefreshing app)
                    (App.isInitialLoading app) (Some (message e)))
             end, w').
Proof.
  intros Hname Hemail Hcreate.
  apply trim_truthy in Hname. apply trim_truthy in Hemail.
  split; [exact Hname|].
  unfold LeadForm.handleSubmit, H.bind, H.get. cbn [fst].
  rewrite Hname, Hemail. cbn [negb orb].
  unfold H.self, H.modify, H.tryFinally, H.tryCatch, H.parent, H.ret. cbn [fst snd].
  rewrite (handleSubmitLead_run cfg _ app w w' o Hcreate).
  destruct o; reflexivity.
Qed.

End FormAndApp.

(** ** The leads table *)

(** X17.  Without a selected lead, or with a blank message text,
    [handleSendMessage] does nothing at all: whatever the callbacks are,
    none is called, no request is sent and the state stays as it was. *)
Theorem handleSendMessage_nothing_to_send {P : Type}
    (onRefresh : Handler P unit) (onSendMessage : Lead.t -> string -> Handler P unit)
    (onLoadComments : string -> Handler P (list AffiliateComment.t))
    (table : LeadsTable.State) (p : P) (w : World) :
  LeadsTable.selectedLead table = None \/ blank (LeadsTable.messageText table) ->
  LeadsTable.handleSendMessage onRefresh onSendMessage onLoadComments (table, p) w
  = Some (Return tt, (table, p), w).
Proof.
  intros Hnothing. unfold LeadsTable.handleSendMessage, H.bind, H.get. cbn [fst].
  destruct (LeadsTable.selectedLead table) as [selected|]; [|reflexivity].
  destruct Hnothing as [Habs|Hblank]; [discriminate Habs|].
  apply trim_empty in Hblank. now rewrite Hblank.
Qed.

(** A message of one space for the selected example lead. *)
Lemma handleSendMessage_nothing_to_send_witness :
  let table := LeadsTable.mk (Some exampleLead) true " " false [] false in
  let cfg := config exampleEnv in
  let w := {| script := [Return (okResponse (examplePage 0 None))]; sent := [] |} in
  blank " "
  /\ LeadsTable.handleSendMessage (@App.loadLeads exampleEngine cfg)
       (@App.handleSendMessage cfg) (@App.handleLoadComments exampleEngine cfg)
       (table, App.initial) w
     = Some (Return tt, (table, App.initial), w).
Proof.
  intros table cfg w.
  assert (Hblank : blank " ").
  { intros c [<-|[]]; reflexivity. }
  split; [exact Hblank|].
  apply (handleSendMessage_nothing_to_send (@App.loadLeads exampleEngine cfg)
           (@App.handleSendMessage cfg) (@App.handleLoadComments exampleEngine cfg)
           table App.initial w).
  right. exact Hblank.
Defined.

Section TableAndApp.
Context `{Engine}.

Lemma loadComments_outcomes (cfg : Config) (leadId : string) (table : LeadsTable.State)
    (app : App.State) (w w' : World) (o : completion (list AffiliateComment.t)) :
  fetchAffiliateCommentsForLead cfg leadId w = Some (o, w') ->
  LeadsTable.loadComments (App.handleLoadComments cfg) leadId (table, app) w
  = Some (Return tt,
          (LeadsTable.setIsCommentsLoading false
             (LeadsTable.setComments (shownComments o) table),
           afterComments o app), w').
Proof.
  intros Hfetch.
  unfold LeadsTable.loadComments, H.bind, H.self, H.modify, H.tryFinally, H.parent.
  cbn [fst snd].
  rewrite (handleLoadComments_run cfg leadId app w w' o Hfetch).
  destruct o; reflexivity.
Qed.

(** X18.  A click on a row selects the lead, opens the panel, clears the
    message text and loads the comments of that lead; it never throws.
    The comments shown are the ones fetched, or none when the fetch
    fails, in which case the page shows the message of the failure. *)
Theorem handleRowClick_outcomes (cfg : Config) (lead : Lead.t) (table : LeadsTable.State)
    (app : App.State) (w w' : World) (o : completion (list AffiliateComment.t)) :
  fetchAffiliateCommentsForLead cfg (Lead.id lead) w = Some (o, w') ->
  LeadsTable.handleRowClick (App.handleLoadComments cfg) lead (table, app) w
  = Some (Return tt,
          (LeadsTable.mk (Some lead) true EmptyString (LeadsTable.isSendingMessage table)
             (shownComments o) false,
           afterComments o app), w').
Proof.
  intros Hfetch.
  unfold LeadsTable.handleRowClick, H.bind, H.self, H.modify. cbn [fst snd].
  rewrite (loadComments_outcomes cfg (Lead.id lead) _ app w w' o Hfetch).
  reflexivity.
Qed.

(** X19.  Sending a message from the table, with the handlers of [App]
    as callbacks.  The text goes out trimmed.  If the send fails, nothing
    else is requested: the typed text and the comments shown stay, the
    page shows the message of the failure, and nothing is thrown.  If the
    send succeeds, the text is cleared, then the comments of the lead are
    fetched, then the leads; the table shows the comments fetched (none
    when that fetch failed) and the page the leads fetched (the old ones
    when that fetch failed).  The error left on the page is that of the
    last fetch alone: a failure to reload the comments is wiped by the
    refresh of the leads that follows it. *)
Theorem handleSendMessage_outcomes_in_table (cfg : Config) (selected : Lead.t)
    (table : LeadsTable.State) (app : App.State) (w w1 : World) (sending : completion unit) :
  LeadsTable.selectedLead table = Some selected ->
  ~ blank (LeadsTable.messageText table) ->
  sendAffiliateMessage cfg selected (trim (LeadsTable.messageText table)) w
  = Some (sending, w1) ->
  let run := LeadsTable.handleSendMessage (App.loadLeads cfg) (App.handleSendMessage cfg)
               (App.handleLoadComments cfg) (table, app) w in
  (forall e, sending = Throw e ->
     run = Some (Return tt,
                 (LeadsTable.setIsSendingMessage false table,
                  App.mk (App.leads app) (App.isRefreshing app)
                    (App.isInitialLoading app) (Some (message e))), w1))
  /\ (forall w2 w3 loading listing,
         sending = Return tt ->
         fetchAffiliateCommentsForLead cfg (Lead.id selected) w1 = Some (loading, w2) ->
         fetchLeads cfg w2 = Some (listing, w3) ->
         run = Some (Return tt,
                     (LeadsTable.mk (Some selected) (LeadsTable.isOpen table) EmptyString
                        false (shownComments loading) false,
                      match listing with
                      | Return result => App.mk result false false None
                      | Throw e => App.mk (App.leads app) false false (Some (message e))
                      end), w3)).
Proof.
  intros Hselected Htext Hsend run. apply trim_truthy in Htext.
  assert (Hrun : run
                 = H.bind (H.self (H.modify (LeadsTable.setIsSendingMessage true)))
                     (fun _ =>
                        H.tryFinally
                          (H.tryCatch
                             (H.bind (H.parent (App.handleSendMessage cfg selected
                                                  (trim (LeadsTable.messageText table))))
                                (fun _ =>
                                   H.bind (H.self (H.modify
                                                     (LeadsTable.setMessageText EmptyString)))
                                     (fun _ =>
                                        H.bind (LeadsTable.loadComments
                                                  (App.handleLoadComments cfg)
                                                  (Lead.id selected))
                                          (fun _ => H.parent (App.loadLeads cfg)))))
                             (fun _ => H.ret tt))
                          (H.self (H.modify (LeadsTable.setIsSendingMessage false))))
                     (table, app) w).
  { subst run. unfold LeadsTable.handleSendMessage. unfold H.bind at 1. unfold H.get.
    cbn [fst]. rewrite Hselected, Htext. reflexivity. }
  assert (Hsent : run
                  = match sending with
                    | Return _ =>
                        H.tryFinally
                          (H.tryCatch
                             (H.bind (H.self (H.modify
                                                (LeadsTable.setMessageText EmptyString)))
                                (fun _ =>
                                   H.bind (LeadsTable.loadComments
                                             (App.handleLoadComments cfg)
                                             (Lead.id selected))
                                     (fun _ => H.parent (App.loadLeads cfg))))
                             (fun _ => H.ret tt))
                          (H.self (H.modify (LeadsTable.setIsSendingMessage false)))
                          (LeadsTable.setIsSendingMessage true table,
                           App.mk (App.leads app) (App.isRefreshing app)
                             (App.isInitialLoading app) None) w1
                    | Throw e =>
                        Some (Return tt,
                              (LeadsTable.setIsSendingMessage false table,
                               App.mk (App.leads app) (App.isRefreshing app)
                                 (App.isInitialLoading app) (Some (message e))), w1)
                    end).
  { rewrite Hrun.
    unfold H.bind at 1. unfold H.self at 1. unfold H.modify at 1. cbn [fst snd].
    unfold H.tryFinally, H.tryCatch. unfold H.bind at 1. unfold H.parent at 1.
    cbn [fst snd].
    rewrite (handleSendMessage_run cfg selected _ app w w1 sending Hsend).
    destruct sending as [[]|e]; [reflexivity|].
    unfold H.ret, H.self, H.modify. cbn [fst snd]. destruct table; reflexivity. }
  rewrite Hsent. clear Hsent Hrun run. split.
  - now intros e ->.
  - intros w2 w3 loading listing -> Hload Hlist.
    unfold H.tryFinally, H.tryCatch.
    unfold H.bind at 1. unfold H.self at 1. unfold H.modify at 1. cbn [fst snd].
    unfold H.bind at 1.
    rewrite (loadComments_outcomes cfg (Lead.id selected) _ _ w1 w2 loading Hload).
    unfold H.parent. cbn [fst snd].
    rewrite (loadLeads_run cfg _ w2 w3 listing Hlist).
    unfold H.self, H.modify. cbn [fst snd].
    destruct table; simpl in *; subst; destruct listing, loading; reflexivity.
Qed.

End TableAndApp.

(** ** Runs of the handlers on the example worlds *)

(** The form holds the example input with spaces around the name; the
    store echoes the record it creates. *)
Lemma handleSubmit_outcomes_witness :
  let cfg := config exampleEnv in
  let form := LeadForm.mk (exampleInput "  Ada ") false in
  let sentInput := LeadForm.trimmed (exampleInput "  Ada ") in
  let created := AirtableRecord.mk "rec1" "2024-01-01T00:00:00.000Z"
                   (createLead_fields cfg sentInput) in
  let w := {| script := [Return (okResponse (Payload.mk [created] None None))];
              sent := [] |} in
  let w' := {| script := []; sent := [createRequest cfg leadsUrl sentInput] |} in
  let lead := @mapRecordToLead exampleEngine cfg created in
  NewLeadInput.name sentInput = "Ada"
  /\ Lead.name lead = "Ada"
  /\ LeadForm.handleSubmit (@App.handleSubmitLead exampleEngine cfg) (form, App.initial) w
     = Some (Return tt,
             (LeadForm.mk LeadForm.initialState false, App.mk [lead] false true None), w').
Proof.
  intros cfg form sentInput created w w' lead.
  split; [reflexivity|]. split; [vm_compute; reflexivity|].
  assert (Hname : ~ blank (NewLeadInput.name (LeadForm.formData form))).
  { intros Hblank. specialize (Hblank "A"%char). simpl in Hblank.
    assert (Habs : isWhiteSpace "A" = true) by (apply Hblank; auto).
    discriminate Habs. }
  assert (Hemail : ~ blank (NewLeadInput.affiliateEmail (LeadForm.formData form))).
  { intros Hblank. specialize (Hblank "r"%char). simpl in Hblank.
    assert (Habs : isWhiteSpace "r" = true) by (apply Hblank; auto).
    discriminate Habs. }
  assert (Hcreate : @createLead exampleEngine cfg
                      (LeadForm.trimmed (LeadForm.formData form)) w
                    = Some (Return lead, w')) by reflexivity.
  apply (@handleSubmit_outcomes exampleEngine cfg form App.initial w w' _
           Hname Hemail Hcreate).
Defined.

(** A click on the row of the example lead, over the fallback world. *)
Lemma handleRowClick_outcomes_witness :
  let cfg := config exampleEnv in
  let table := LeadsTable.mk None false "draft" false [] false in
  exists loaded w',
    @fetchAffiliateCommentsForLead exampleEngine cfg (Lead.id exampleLead) fallbackWorld
    = Some (Return loaded, w')
    /\ LeadsTable.handleRowClick (@App.handleLoadComments exampleEngine cfg) exampleLead
         (table, App.initial) fallbackWorld
       = Some (Return tt,
               (LeadsTable.mk (Some exampleLead) true EmptyString false loaded false,
                App.initial), w').
Proof.
  intros cfg table.
  destruct (@fetchAffiliateCommentsForLead exampleEngine cfg (Lead.id exampleLead)
              fallbackWorld)
    as [[[loaded|e] w']|] eqn:Hfetch; try (vm_compute in Hfetch; discriminate Hfetch).
  exists loaded, w'. split; [reflexivity|].
  apply (@handleRowClick_outcomes exampleEngine cfg exampleLead table App.initial
           fallbackWorld w' _ Hfetch).
Defined.

(** The message hello, typed with spaces around it, for the example
    lead: the store accepts it, answers the filtered query with the
    three example comments and lists two leads. *)
Lemma handleSendMessage_outcomes_in_table_witness :
  let cfg := config exampleEnv in
  let table := LeadsTable.mk (Some exampleLead) true " hello " false [] false in
  let accepted := Return (okResponse (Payload.mk [] None None)) in
  let thread := Return (okResponse (Payload.mk exampleComments None None)) in
  let listing := Return (okResponse (Payload.mk exampleLeadRecords None None)) in
  let w := {| script := [accepted; thread; listing]; sent := [] |} in
  let requests :=
    [messageRequest cfg commentsUrl exampleLead "hello";
     listRequest cfg commentsUrl [("filterByFormula", formulaFor cfg "recLEAD")];
     leadsRequest cfg leadsUrl] in
  LeadsTable.selectedLead table = Some exampleLead
  /\ ~ blank (LeadsTable.messageText table)
  /\ LeadsTable.handleSendMessage (@App.loadLeads exampleEngine cfg)
       (@App.handleSendMessage cfg) (@App.handleLoadComments exampleEngine cfg)
       (table, App.initial) w
     = Some (Return tt,
             (LeadsTable.mk (Some exampleLead) true EmptyString false
                (@commentsOfRecords exampleEngine cfg exampleComments) false,
              App.mk (List.map (@mapRecordToLead exampleEngine cfg) exampleLeadRecords)
                false false None),
             {| script := []; sent := requests |}).
Proof.
  intros cfg table accepted thread listing w requests.
  assert (Htext : ~ blank (LeadsTable.messageText table)).
  { intros Hblank. specialize (Hblank "h"%char). simpl in Hblank.
    assert (Habs : isWhiteSpace "h" = true) by (apply Hblank; auto).
    discriminate Habs. }
  split; [reflexivity|]. split; [exact Htext|].
  pose (w1 := {| script := [thread; listing];
                 sent := [messageRequest cfg commentsUrl exampleLead "hello"] |}).
  pose (w2 := {| script := [listing];
                 sent := [messageRequest cfg commentsUrl exampleLead "hello";
                          listRequest cfg commentsUrl
                            [("filterByFormula", formulaFor cfg "recLEAD")]] |}).
  assert (Hsend : sendAffiliateMessage cfg exampleLead (trim (LeadsTable.messageText table)) w
                  = Some (Return tt, w1)) by reflexivity.
  assert (Hload : @fetchAffiliateCommentsForLead exampleEngine cfg (Lead.id exampleLead) w1
                  = Some (Return (@commentsOfRecords exampleEngine cfg exampleComments), w2))
    by reflexivity.
  assert (Hlist : @fetchLeads exampleEngine cfg w2
                  = Some (Return (List.map (@mapRecordToLead exampleEngine cfg)
                                    exampleLeadRecords),
                          {| script := []; sent := requests |})) by reflexivity.
  destruct (@handleSendMessage_outcomes_in_table exampleEngine cfg exampleLead table
              App.initial w w1 (Return tt) eq_refl Htext Hsend) as [_ Hsuccess].
  apply (Hsuccess w2 _ _ _ eq_refl Hload Hlist).
Defined.

(** * Further properties of the adapter, continued *)

(** ** Guards and defaults under every environment *)

Lemma truthyOpt_interpolate (s : option string) :
  truthyOpt s = true -> exists v, s = Some v /\ interpolate s = v.
Proof. destruct s as [v|]; [eauto | discriminate]. Qed.

(** X20.  The guards fire only for an absent setting.  [getBaseUrl]
    fails exactly when the token, the base or the table is absent, and
    otherwise returns the table's endpoint.  Under every environment
    [getCommentsBaseUrl] fails exactly when the token or the base is
    absent: its test of the comments table never fires, because that
    setting falls back to a default. *)
Theorem guards_fire_only_when_absent (env : gmap string string) :
  let cfg := config env in
  ((exists e, getBaseUrl cfg = Throw e) <-> exists s, absent cfg s)
  /\ (forall t b i, token cfg = Some t -> baseId cfg = Some b -> tableId cfg = Some i ->
        truthy t = true -> truthy b = true -> truthy i = true ->
        getBaseUrl cfg = Return ("https://api.airtable.com/v0/" +:+ b +:+ "/" +:+ i))
  /\ ((exists e, getCommentsBaseUrl cfg = Throw e)
      <-> absent cfg Token \/ absent cfg BaseId)
  /\ (forall t b, token cfg = Some t -> baseId cfg = Some b ->
        truthy t = true -> truthy b = true ->
        getCommentsBaseUrl cfg
        = Return ("https://api.airtable.com/v0/" +:+ b +:+ "/"
                  +:+ affiliateCommentsTableId cfg)).
Proof.
  intros cfg.
  assert (Htable : truthy (affiliateCommentsTableId cfg) = true).
  { subst cfg. unfold config. cbn [affiliateCommentsTableId]. now apply truthy_orElse. }
  split; [|split; [|split]].
  - split.
    + intros [e He]. unfold getBaseUrl in He.
      destruct (truthyOpt (token cfg)) eqn:Ht; [|now exists Token].
      destruct (truthyOpt (baseId cfg)) eqn:Hb; [|now exists BaseId].
      destruct (truthyOpt (tableId cfg)) eqn:Hi; [|now exists TableId].
      discriminate He.
    + intros [s Hs]. eexists. now apply (getBaseUrl_absent cfg s).
  - intros t b i Ht Hb Hi Htt Htb Hti. unfold getBaseUrl.
    rewrite Ht, Hb, Hi. simpl. now rewrite Htt, Htb, Hti.
  - split.
    + intros [e He]. unfold getCommentsBaseUrl in He. rewrite Htable in He.
      destruct (truthyOpt (token cfg)) eqn:Ht; [|now left].
      destruct (truthyOpt (baseId cfg)) eqn:Hb; [|now right].
      discriminate He.
    + intros [Hs|Hs]; eexists;
        [apply (getCommentsBaseUrl_absent cfg Token) | apply (getCommentsBaseUrl_absent cfg BaseId)];
        solve [discriminate | exact Hs].
  - intros t b Ht Hb Htt Htb. unfold getCommentsBaseUrl.
    rewrite Ht, Hb, Htable. simpl. now rewrite Htt, Htb.
Qed.

Section Authors.
Context `{Engine}.

(** X21.  Under every environment the author of a comment is read from
    the configured author column alone (Created By when none is set):
    the list of fallback author columns is never consulted, so a record
    that names its author only under Author, From or Sender has no
    author. *)
Theorem comment_author_from_configured_column (env : gmap string string)
    (record : AirtableRecord.t) :
  let cfg := config env in
  truthy (affiliateCommentsAuthorField cfg) = true
  /\ AffiliateComment.author (commentOfRecord cfg record)
     = parseText (get (AirtableRecord.fields record) (affiliateCommentsAuthorField cfg))
  /\ (AirtableRecord.fields record !! affiliateCommentsAuthorField cfg = None ->
      AffiliateComment.author (commentOfRecord cfg record) = None).
Proof.
  intros cfg.
  assert (Hauthor : truthy (affiliateCommentsAuthorField cfg) = true).
  { subst cfg. unfold config. cbn [affiliateCommentsAuthorField]. now apply truthy_orElse. }
  split; [exact Hauthor|].
  assert (Hread : AffiliateComment.author (commentOfRecord cfg record)
                  = parseText (get (AirtableRecord.fields record)
                                 (affiliateCommentsAuthorField cfg))).
  { unfold commentOfRecord. cbn [AffiliateComment.author]. now rewrite Hauthor. }
  split; [exact Hread|].
  intros Hnone. rewrite Hread. unfold get. now rewrite Hnone.
Qed.

End Authors.

(** ** Pages that cannot be read, and order that is already there *)

(** X22.  When a success response of the paginated fetch has a body that
    cannot be read, the fetch ends with that error and the records of the
    pages before it are not returned. *)
Theorem fetchAllRecords_unreadable_page (cfg : Config) (baseUrl : string)
    (params : URLSearchParams.t) (w : World) (rs : list Response) (ps : list Payload.t)
    (r : Response) (e : error) (rest : list (completion Response)) :
  Forall2 carries rs ps ->
  Forall (fun p => truthyOpt (Payload.offset p) = true) ps ->
  script w = List.map Return rs ++ Return r :: rest ->
  ok r = true -> json r = Throw e ->
  fetchAllRecords cfg baseUrl params w
  = Some (Throw e,
          {| script := rest;
             sent := sent w
                     ++ offsetRequests cfg baseUrl params
                          (None :: List.map Payload.offset ps) |}).
Proof.
  intros Hcarry Htokens Hscript Hok Hjson.
  rewrite (fetchAllRecords_pages cfg baseUrl params rs ps (Return r) rest w
             Hcarry Htokens); [|intros r' p' [= <-] [_ Hjson']; congruence | exact Hscript].
  unfold lastTurn. now rewrite Hok, Hjson.
Qed.

(** One good page, then a page whose body is not JSON. *)
Lemma fetchAllRecords_unreadable_page_witness :
  let cfg := config exampleEnv in
  let first := okResponse (examplePage 0 (Some "page2")) in
  let broken := {| status := 200; statusText := "OK";
                   json := Throw (SyntaxError "Unexpected end of JSON input") |} in
  let w := {| script := [Return first; Return broken]; sent := [] |} in
  exists w',
    fetchAllRecords cfg commentsUrl [] w
    = Some (Throw (SyntaxError "Unexpected end of JSON input"), w')
    /\ script w' = [] /\ length (sent w') = 2.
Proof.
  intros cfg first broken w. eexists. split.
  - apply (fetchAllRecords_unreadable_page cfg commentsUrl [] w [first]
             [examplePage 0 (Some "page2")] broken
             (SyntaxError "Unexpected end of JSON input") []);
      try reflexivity; repeat constructor.
  - split; reflexivity.
Defined.

Lemma sort_of_sorted (l : list AffiliateComment.t) :
  Forall dated l -> StronglySorted notAfter l -> sort byCreatedTime l = l.
Proof.
  intros Hdated Hsorted. induction Hsorted as [|x l Hsorted IH Hx]; [reflexivity|].
  inversion Hdated as [|? ? [tx Htx] Hdated']; subst.
  simpl. rewrite (IH Hdated'). destruct l as [|y l]; [reflexivity|].
  simpl. inversion Hx as [|? ? Hxy _]; subst.
  destruct Hxy as (tx' & ty & Hx' & Hy & Hle).
  destruct (isPositive (byCreatedTime x y)) eqn:Hcmp; [|reflexivity].
  apply (byCreatedTime_positive x y tx' ty Hx' Hy) in Hcmp. lia.
Qed.

Section Order.
Context `{Engine}.

(** X23.  The comments keep the order in which their records were
    fetched whenever that order is already ascending in creation time,
    equal times included: the sort does not reorder ties. *)
Theorem commentsOfRecords_keeps_ascending_order (cfg : Config)
    (records : list AirtableRecord.t) :
  Forall (fun record => is_Some (DateParse (AirtableRecord.createdTime record))) records ->
  StronglySorted notAfter (List.map (commentOfRecord cfg) records) ->
  commentsOfRecords cfg records
  = List.filter hasText (List.map (commentOfRecord cfg) records).
Proof.
  intros Hvalid Hsorted. unfold commentsOfRecords. apply sort_of_sorted.
  - apply Forall_forall. intros c Hc.
    apply list_elem_of_In, filter_In in Hc as [Hc _].
    apply in_map_iff in Hc as (record & <- & Hrecord).
    rewrite Forall_forall in Hvalid. apply (Hvalid record). now apply list_elem_of_In.
  - induction Hsorted as [|c l Hsorted IH Hc]; simpl; [constructor|].
    destruct (hasText c); [|exact IH].
    constructor; [exact IH|].
    apply Forall_forall. intros c' Hc'.
    apply list_elem_of_In, filter_In in Hc' as [Hc' _].
    rewrite Forall_forall in Hc. apply Hc. now apply list_elem_of_In.
Qed.

End Order.

(** Two comments created at the same time keep the order fetched. *)
Lemma commentsOfRecords_keeps_ascending_order_witness :
  let cfg := config exampleEnv in
  let records :=
    [AirtableRecord.mk "c5" "2024-01-01T00:00:00.000Z" {["Comment" := Str "b"]};
     AirtableRecord.mk "c4" "2024-01-01T00:00:00.000Z" {["Comment" := Str "a"]}] in
  Forall (fun record => is_Some (@DateParse exampleEngine (AirtableRecord.createdTime record)))
    records
  /\ StronglySorted notAfter (List.map (@commentOfRecord exampleEngine cfg) records)
  /\ List.map AffiliateComment.id (@commentsOfRecords exampleEngine cfg records)
     = ["c5"; "c4"].
Proof.
  intros cfg records.
  assert (Hvalid : Forall (fun record =>
                             is_Some (@DateParse exampleEngine
                                        (AirtableRecord.createdTime record))) records).
  { repeat constructor; eexists; reflexivity. }
  assert (Hsorted : StronglySorted notAfter
                      (List.map (@commentOfRecord exampleEngine cfg) records)).
  { repeat constructor.
    exists 1704067200000%Z, 1704067200000%Z. repeat split; [reflexivity..|lia]. }
  split; [exact Hvalid|]. split; [exact Hsorted|].
  rewrite (@commentsOfRecords_keeps_ascending_order exampleEngine cfg records
             Hvalid Hsorted).
  vm_compute. reflexivity.
Defined.

(** ** The handlers of App, as their callers see them *)

Section AppOutcomes.
Context `{Engine}.

(** X12.  [loadLeads] never throws and always ends with both loading
    flags cleared.  When the list arrives it replaces the leads and no
    error is shown; when the fetch fails the leads stay as they were and
    the error shown is the message of the failure. *)
Theorem loadLeads_outcomes (cfg : Config) (st : App.State) (w w' : World)
    (o : completion (list Lead.t)) :
  fetchLeads cfg w = Some (o, w') ->
  exists st',
    App.loadLeads cfg st w = Some (Return tt, st', w')
    /\ App.isRefreshing st' = false
    /\ App.isInitialLoading st' = false
    /\ (forall result, o = Return result ->
          App.leads st' = result /\ App.error st' = None)
    /\ (forall e, o = Throw e ->
          App.leads st' = App.leads st /\ App.error st' = Some (message e)).
Proof.
  intros Hfetch. eexists. split; [apply (loadLeads_run cfg st w w' o Hfetch)|].
  destruct o; (split; [reflexivity|]); (split; [reflexivity|]);
    split; intros x Hx; try discriminate Hx; injection Hx as <-; split; reflexivity.
Qed.

(** X13.  [handleSubmitLead] on success puts the created lead at the
    head of the list and shows no error; on failure it leaves the list as
    it was, shows the message of the failure and throws the same error
    on to its caller.  The loading flags are not touched. *)
Theorem handleSubmitLead_outcomes (cfg : Config) (leadInput : NewLeadInput.t)
    (st : App.State) (w w' : World) (o : completion Lead.t) :
  createLead cfg leadInput w = Some (o, w') ->
  exists r st',
    App.handleSubmitLead cfg leadInput st w = Some (r, st', w')
    /\ App.isRefreshing st' = App.isRefreshing st
    /\ App.isInitialLoading st' = App.isInitialLoading st
    /\ (forall created, o = Return created ->
          r = Return tt /\ App.leads st' = created :: App.leads st
          /\ App.error st' = None)
    /\ (forall e, o = Throw e ->
          r = Throw e /\ App.leads st' = App.leads st
          /\ App.error st' = Some (message e)).
Proof.
  intros Hcreate. rewrite (handleSubmitLead_run cfg leadInput st w w' o Hcreate).
  destruct o; eexists _, _; (split; [reflexivity|]);
    (split; [reflexivity|]); (split; [reflexivity|]);
    split; intros x Hx; try discriminate Hx; injection Hx as <-;
    repeat split; reflexivity.
Qed.

(** X14.  [handleLoadComments] never throws: the comments that arrive
    are returned and the state is not touched, so an error shown before
    stays shown; on failure the result is the empty list and the error
    shown is the message of the failure. *)
Theorem handleLoadComments_outcomes (cfg : Config) (leadId : string)
    (st : App.State) (w w' : World) (o : completion (list AffiliateComment.t)) :
  fetchAffiliateCommentsForLead cfg leadId w = Some (o, w') ->
  exists loaded st',
    App.handleLoadComments cfg leadId st w = Some (Return loaded, st', w')
    /\ App.leads st' = App.leads st
    /\ (forall fetched, o = Return fetched -> loaded = fetched /\ st' = st)
    /\ (forall e, o = Throw e -> loaded = [] /\ App.error st' = Some (message e)).
Proof.
  intros Hfetch. rewrite (handleLoadComments_run cfg leadId st w w' o Hfetch).
  destruct o; eexists _, _; (split; [reflexivity|]); (split; [reflexivity|]);
    split; intros x Hx; try discriminate Hx; injection Hx as <-; split; reflexivity.
Qed.

End AppOutcomes.

(** The store lists two leads. *)
Lemma loadLeads_outcomes_witness :
  let cfg := config exampleEnv in
  let w := {| script := [Return (okResponse (Payload.mk exampleLeadRecords None None))];
              sent := [] |} in
  let w' := {| script := []; sent := [leadsRequest cfg leadsUrl] |} in
  let listed := List.map (@mapRecordToLead exampleEngine cfg) exampleLeadRecords in
  @fetchLeads exampleEngine cfg w = Some (Return listed, w')
  /\ exists st', @App.loadLeads exampleEngine cfg App.initial w = Some (Return tt, st', w')
                 /\ App.isRefreshing st' = false.
Proof.
  intros cfg w w' listed.
  assert (Hfetch : @fetchLeads exampleEngine cfg w = Some (Return listed, w'))
    by reflexivity.
  split; [exact Hfetch|].
  destruct (@loadLeads_outcomes exampleEngine cfg App.initial w w' _ Hfetch)
    as (st' & Hrun & Hflag & _).
  exists st'. split; [exact Hrun | exact Hflag].
Defined.

(** The store refuses the creation with a message of its own. *)
Lemma handleSubmitLead_outcomes_witness :
  let cfg := config exampleEnv in
  let refused := {| status := 422; statusText := "Unprocessable Entity";
                    json := Return (Payload.mk [] None (Some "Unknown field name")) |} in
  let w := {| script := [Return refused]; sent := [] |} in
  let w' := {| script := []; sent := [createRequest cfg leadsUrl (exampleInput "Ada")] |} in
  @createLead exampleEngine cfg (exampleInput "Ada") w
  = Some (Throw (Error "Unknown field name"), w')
  /\ exists r st',
       @App.handleSubmitLead exampleEngine cfg (exampleInput "Ada") App.initial w
       = Some (r, st', w')
       /\ App.isRefreshing st' = App.isRefreshing App.initial.
Proof.
  intros cfg refused w w'.
  assert (Hcreate : @createLead exampleEngine cfg (exampleInput "Ada") w
                    = Some (Throw (Error "Unknown field name"), w')) by reflexivity.
  split; [exact Hcreate|].
  destruct (@handleSubmitLead_outcomes exampleEngine cfg (exampleInput "Ada") App.initial
              w w' _ Hcreate) as (r & st' & Hrun & Hflag & _).
  exists r, st'. split; [exact Hrun | exact Hflag].
Defined.

(** The comments of the example lead through the fallback scan. *)
Lemma handleLoadComments_outcomes_witness :
  let cfg := config exampleEnv in
  exists o w' loaded st',
    @fetchAffiliateCommentsForLead exampleEngine cfg "recLEAD" fallbackWorld = Some (o, w')
    /\ @App.handleLoadComments exampleEngine cfg "recLEAD" App.initial fallbackWorld
       = Some (Return loaded, st', w')
    /\ App.leads st' = App.leads App.initial.
Proof.
  intros cfg.
  destruct (@fetchAffiliateCommentsForLead exampleEngine cfg "recLEAD" fallbackWorld)
    as [[o w']|] eqn:Hfetch; [|vm_compute in Hfetch; discriminate Hfetch].
  destruct (@handleLoadComments_outcomes exampleEngine cfg "recLEAD" App.initial
              fallbackWorld w' o Hfetch) as (loaded & st' & Hrun & Hleads & _).
  exists o, w', loaded, st'. split; [reflexivity|]. split; [exact Hrun | exact Hleads].
Defined.

(** ** The counters of the page *)


